(** * Activity tracker: the JSON-backed store and the calendar view

    A shallow embedding of [src/database/db_manager.py] (class
    [DatabaseManager]), of the month navigation, the drawing of the month
    and the indicator computation of [src/gui/calendar_view.py] (class
    [CalendarView]), of [sanitize_input] and [validate_color_hex] of
    [src/utils/validators.py], and of the statistics and the handlers of
    [src/main.py] (class [MainWindow]) that write to the store, followed by
    the properties the specification states about them and by further
    properties of the code.

    Modelling conventions.
    - A Python [int] is a [Z]; a Python [str] is a [string], compared the way
      Python compares strings: lexicographically, character code by
      character code ([String.compare]). A [string] holds the UTF-8 bytes
      of the text, whose order agrees with the order of the code points.
    - The dictionaries stored in the JSON document are records: every
      category carries the keys "id", "name", "color" and every activity the
      keys "id", "title", "category_id", "date", "duration", "notes", as all
      writers of the document produce them.
    - The backing file is the state of a small state monad [Store]: an
      operation loads the whole document, changes it in memory and dumps it
      back, as every method of [DatabaseManager] does. *)

From Stdlib Require Import ZArith Ascii String.
From stdpp Require Import base decidable option list sorting gmap strings.

Local Open Scope Z_scope.

(** ** Data model *)

(** [{"id": ..., "name": ..., "color": ...}] *)
Record Category : Type := mkCategory {
  cat_id : Z;
  cat_name : string;
  cat_color : string
}.

(** [{"id": ..., "title": ..., "category_id": ..., "date": ...,
      "duration": ..., "notes": ...}] *)
Record Activity : Type := mkActivity {
  act_id : Z;
  act_title : string;
  act_category_id : Z;
  act_date : string;
  act_duration : Z;
  act_notes : string
}.

(** The activities file: [{"categories": [...], "activities": [...]}]. *)
Record Document : Type := mkDocument {
  categories : list Category;
  activities : list Activity
}.

#[global] Instance Category_eq_dec : EqDecision Category.
Proof. solve_decision. Defined.

#[global] Instance Activity_eq_dec : EqDecision Activity.
Proof. solve_decision. Defined.

(** ** The store monad: the backing file threaded through the calls *)

Definition Store (A : Type) : Type := Document -> A * Document.

#[global] Instance Store_ret : MRet Store := fun A x file => (x, file).

#[global] Instance Store_bind : MBind Store :=
  fun A B k m file => let (x, file') := m file in k x file'.

(** [with open(self.activities_file, 'r') as f: data = json.load(f)] *)
Definition load : Store Document := fun file => (file, file).

(** [with open(self.activities_file, 'w') as f: json.dump(data, f, ...)] *)
Definition dump (data : Document) : Store unit := fun _ => (tt, data).

(** The value an operation returns and the file it leaves. *)
Definition result {A : Type} (m : Store A) (file : Document) : A := fst (m file).
Definition after {A : Type} (m : Store A) (file : Document) : Document := snd (m file).

(** ** Python helpers *)

(** [max(xs)] of a non-empty sequence [x :: xs], scanned left to right. *)
Definition py_max (x : Z) (xs : list Z) : Z := fold_left Z.max xs x.

(** The id both [add_category] and [add_activity] generate:
    [new_id = 1; if seq: new_id = max(e["id"] for e in seq) + 1]. *)
Definition new_id (ids : list Z) : Z :=
  match ids with
  | [] => 1
  | x :: xs => py_max x xs + 1
  end.

(** The test [if start_date:] on an optional string argument: [None] and the
    empty string are both false; a true argument is handed on. *)
Definition truthy (arg : option string) : option string :=
  match arg with
  | None => None
  | Some s => if String.eqb s EmptyString then None else Some s
  end.

(** Python's [a <= b] on strings. *)
Definition str_le (a b : string) : bool := String.leb a b.

(** ** DatabaseManager *)

(** The document [_initialize_db] writes when the file does not exist. *)
Definition seed_document : Document :=
  {| categories :=
       [ mkCategory 1 "Sport" "#FF5733";
         mkCategory 2 "Lecture" "#33A8FF";
         mkCategory 3 "Méditation" "#B033FF";
         mkCategory 4 "Travail" "#33FF57" ];
     activities := [] |}.

(** [_initialize_db]: the file is created only when it is absent. *)
Definition _initialize_db (file : option Document) : Document :=
  match file with
  | Some d => d
  | None => seed_document
  end.

Definition get_categories : Store (list Category) :=
  data ← load;
  mret (categories data).

Definition add_category (name color : string) : Store Z :=
  data ← load;
  let id := new_id (cat_id <$> categories data) in
  let data' :=
    {| categories := categories data ++ [mkCategory id name color];
       activities := activities data |} in
  dump data' ;;
  mret id.

Definition delete_category (category_id : Z) : Store bool :=
  data ← load;
  let data' :=
    {| categories := filter (fun c => cat_id c ≠ category_id) (categories data);
       activities := activities data |} in
  dump data' ;;
  mret true.

Definition get_activities (start_date end_date : option string)
    (category_id : option Z) : Store (list Activity) :=
  data ← load;
  let acts := activities data in
  let acts :=
    match truthy start_date with
    | Some s => filter (fun a => str_le s (act_date a)) acts
    | None => acts
    end in
  let acts :=
    match truthy end_date with
    | Some e => filter (fun a => str_le (act_date a) e) acts
    | None => acts
    end in
  let acts :=
    match category_id with
    | Some c => filter (fun a => act_category_id a = c) acts
    | None => acts
    end in
  mret acts.

Definition add_activity (title : string) (category_id : Z) (date : string)
    (duration : Z) (notes : string) : Store Z :=
  data ← load;
  let id := new_id (act_id <$> activities data) in
  let data' :=
    {| categories := categories data;
       activities :=
         activities data ++ [mkActivity id title category_id date duration notes] |} in
  dump data' ;;
  mret id.

(** The loop of [update_activity]: the first activity whose id matches has
    its four fields overwritten, then the loop breaks. *)
Fixpoint update_first (activity_id : Z) (title : string) (category_id : Z)
    (duration : Z) (notes : string) (acts : list Activity) : list Activity :=
  match acts with
  | [] => []
  | activity :: rest =>
      if decide (act_id activity = activity_id)
      then mkActivity (act_id activity) title category_id (act_date activity)
             duration notes :: rest
      else activity :: update_first activity_id title category_id duration notes rest
  end.

Definition update_activity (activity_id : Z) (title : string) (category_id : Z)
    (duration : Z) (notes : string) : Store bool :=
  data ← load;
  let data' :=
    {| categories := categories data;
       activities :=
         update_first activity_id title category_id duration notes (activities data) |} in
  dump data' ;;
  mret true.

Definition delete_activity (activity_id : Z) : Store bool :=
  data ← load;
  let data' :=
    {| categories := categories data;
       activities := filter (fun a => act_id a ≠ activity_id) (activities data) |} in
  dump data' ;;
  mret true.

(** ** datetime, as far as the calendar view uses it *)

Module datetime.

Record t : Type := mk { year : Z; month : Z; day : Z }.

Definition MINYEAR : Z := 1.
Definition MAXYEAR : Z := 9999.

Definition is_leap (y : Z) : bool :=
  (y mod 4 =? 0) && (negb (y mod 100 =? 0) || (y mod 400 =? 0)).

Definition days_in_month (y m : Z) : Z :=
  if m =? 2 then (if is_leap y then 29 else 28)
  else if (m =? 4) || (m =? 6) || (m =? 9) || (m =? 11) then 30
  else 31.

(** The constructor [datetime(year, month, day)]; [None] is the
    [ValueError] it raises for a year outside [MINYEAR..MAXYEAR], a month
    outside [1..12] or a day outside the month. *)
Definition new (y m d : Z) : option t :=
  if (MINYEAR <=? y) && (y <=? MAXYEAR) && (1 <=? m) && (m <=? 12)
     && (1 <=? d) && (d <=? days_in_month y m)
  then Some (mk y m d)
  else None.

(** The values the constructor can produce. *)
Definition valid (d : t) : Prop := new (year d) (month d) (day d) = Some d.

Definition digit (n : Z) : ascii := ascii_of_nat (48 + Z.to_nat (n mod 10)).

Definition zero_pad2 (n : Z) : string :=
  String (digit (n / 10)) (String (digit n) EmptyString).

Definition zero_pad4 (n : Z) : string :=
  String (digit (n / 1000)) (String (digit (n / 100)) (zero_pad2 n)).

(** [d.strftime("%Y-%m-%d")]: four digits for the year, two for the month
    and two for the day. For a year below 1000 the C library decides
    whether the year is padded with zeros; what is proved below about the
    text of a date either holds for any text or is stated for the years
    from 1000 on. *)
Definition strftime_Ymd (d : t) : string :=
  (zero_pad4 (year d) ++ "-" ++ zero_pad2 (month d) ++ "-" ++ zero_pad2 (day d))%string.

End datetime.

(** ** CalendarView *)

(** The fields of the widget that the navigation reads and writes. *)
Record CalendarView : Type := mkCalendarView {
  today : datetime.t;
  current_date : datetime.t;
  selected_date : option datetime.t
}.

(** One entry of [self.day_labels]: the date of the cell and the background
    colours of the frames packed, left to right, into its indicator frame. *)
Record DayItem : Type := mkDayItem {
  item_date : option datetime.t;
  item_indicator : list string
}.

(** [_prev_month]; [None] is the [ValueError] of the [datetime] constructor,
    raised before [self.current_date] is assigned. The redraw that follows
    the assignment changes no field of the view. *)
Definition _prev_month (self : CalendarView) : option CalendarView :=
  let year := datetime.year (current_date self) in
  let month := datetime.month (current_date self) - 1 in
  let '(year, month) := if month <? 1 then (year - 1, 12) else (year, month) in
  d ← datetime.new year month 1;
  Some {| today := today self; current_date := d;
          selected_date := selected_date self |}.

(** [_next_month] *)
Definition _next_month (self : CalendarView) : option CalendarView :=
  let year := datetime.year (current_date self) in
  let month := datetime.month (current_date self) + 1 in
  let '(year, month) := if month >? 12 then (year + 1, 1) else (year, month) in
  d ← datetime.new year month 1;
  Some {| today := today self; current_date := d;
          selected_date := selected_date self |}.

(** [{cat["id"]: cat for cat in cats}]: a later category with the same id
    replaces an earlier one. *)
Definition category_index (cats : list Category) : gmap Z Category :=
  fold_left (fun m cat => <[cat_id cat := cat]> m) cats ∅.

(** One round of the grouping loop: [by_category] is a dictionary that keeps
    its keys in the order of their first insertion, here an association
    list with distinct keys. *)
Fixpoint group_add (cat : Z) (activity : Activity)
    (by_category : list (Z * list Activity)) : list (Z * list Activity) :=
  match by_category with
  | [] => [(cat, [activity])]
  | (k, acts) :: rest =>
      if decide (k = cat)
      then (k, acts ++ [activity]) :: rest
      else (k, acts) :: group_add cat activity rest
  end.

(** The grouping loop: [for activity in activities: ...]. *)
Definition group_by_category (acts : list Activity) : list (Z * list Activity) :=
  fold_left (fun by_category a => group_add (act_category_id a) a by_category) acts [].

(** The last loop of [_add_activity_indicators]: one frame per key of
    [by_category] that is also a key of [categories]. *)
Definition indicator_frames (cats : gmap Z Category)
    (by_category : list (Z * list Activity)) : list string :=
  by_category ≫= (fun '(cat, _) =>
    match cats !! cat with
    | Some c => [cat_color c]
    | None => []
    end).

(** [_add_activity_indicators]: the frames are appended to those the
    indicator frame of the cell already holds; a cell without a date is left
    as it is. *)
Definition _add_activity_indicators (day_item : DayItem) : Store DayItem :=
  match item_date day_item with
  | None => mret day_item
  | Some date =>
      let date_str := datetime.strftime_Ymd date in
      acts ← get_activities (Some date_str) (Some date_str) None;
      cats ← get_categories;
      let cats := category_index cats in
      let by_category := group_by_category acts in
      mret {| item_date := item_date day_item;
             item_indicator :=
               item_indicator day_item ++ indicator_frames cats by_category |}
  end.

(** ** Sequences of store calls *)

Inductive call : Type :=
  | AddCategory (name color : string)
  | DeleteCategory (category_id : Z)
  | AddActivity (title : string) (category_id : Z) (date : string)
      (duration : Z) (notes : string)
  | UpdateActivity (activity_id : Z) (title : string) (category_id : Z)
      (duration : Z) (notes : string)
  | DeleteActivity (activity_id : Z).

(** What a call hands back: the new id, or [True]. *)
Inductive answer : Type :=
  | NewId (id : Z)
  | Done (ok : bool).

Definition perform (c : call) : Store answer :=
  match c with
  | AddCategory name color =>
      id ← add_category name color; mret (NewId id)
  | DeleteCategory category_id =>
      ok ← delete_category category_id; mret (Done ok)
  | AddActivity title category_id date duration notes =>
      id ← add_activity title category_id date duration notes; mret (NewId id)
  | UpdateActivity activity_id title category_id duration notes =>
      ok ← update_activity activity_id title category_id duration notes;
      mret (Done ok)
  | DeleteActivity activity_id =>
      ok ← delete_activity activity_id; mret (Done ok)
  end.

Fixpoint perform_all (cs : list call) : Store (list answer) :=
  match cs with
  | [] => mret []
  | c :: cs' =>
      a ← perform c;
      rest ← perform_all cs';
      mret (a :: rest)
  end.

(** The ids handed back by the adds of a run, in call order. *)
Definition new_ids (answers : list answer) : list Z :=
  answers ≫= (fun a => match a with NewId id => [id] | Done _ => [] end).

Definition is_category_call (c : call) : bool :=
  match c with
  | AddCategory _ _ | DeleteCategory _ => true
  | _ => false
  end.

(** ** Notions the properties are stated with *)

(** A document with the five dated activities used as a running example. *)
Definition sample_document : Document :=
  {| categories := categories seed_document;
     activities :=
       [ mkActivity 1 "Footing" 1 "2025-01-05" 30 "";
         mkActivity 2 "Roman" 2 "2025-01-10" 45 "chapitre 3";
         mkActivity 3 "Yoga" 3 "2025-01-15" 20 "";
         mkActivity 4 "Rapport" 4 "2025-01-20" 90 "";
         mkActivity 5 "Natation" 1 "2025-01-25" 60 "" ] |}.

(** The invariant of the document: no id occurs twice among the categories,
    and none twice among the activities. *)
Definition unique_ids (file : Document) : Prop :=
  NoDup (cat_id <$> categories file) /\ NoDup (act_id <$> activities file).

(** The activities the specification asks for: date within the closed range
    [s..e] in string order and, when a category id is given, that category. *)
Definition in_range (s e : string) (c : option Z) (a : Activity) : Prop :=
  str_le s (act_date a) /\ str_le (act_date a) e
  /\ from_option (fun k => act_category_id a = k) True c.

#[global] Instance in_range_dec s e c a : Decision (in_range s e c a).
Proof. unfold in_range. destruct c; simpl; apply _. Defined.

(** What has become of the id that the latest [add_category] of a run
    handed out: no add yet, the id is still stored, or a [delete_category]
    has removed it. *)
Inductive latest : Type :=
  | NoAdd
  | Stored (id : Z)
  | Removed (id : Z).

(** The same after one more call. *)
Definition track (c : call) (file : Document) (l : latest) : latest :=
  match c with
  | AddCategory name color => Stored (result (add_category name color) file)
  | DeleteCategory k =>
      match l with
      | Stored r => if decide (k = r) then Removed r else l
      | _ => l
      end
  | _ => l
  end.

(** No [add_category] of the run comes after a [delete_category] that
    removed the id handed out by the latest add before it. *)
Fixpoint keeps_latest (l : latest) (cs : list call) (file : Document) : Prop :=
  match cs with
  | [] => True
  | c :: cs' =>
      match c, l with
      | AddCategory _ _, Removed _ => False
      | _, _ => keeps_latest (track c file l) cs' (after (perform c) file)
      end
  end.

#[global] Instance keeps_latest_dec l cs file : Decision (keeps_latest l cs file).
Proof.
  revert l file. induction cs as [|c cs IH]; intros l file; simpl; [apply _|].
  destruct c, l; apply _.
Defined.

(** The id of the latest add, when there was one. *)
Definition shown (l : latest) : list Z :=
  match l with
  | NoAdd => []
  | Stored r | Removed r => [r]
  end.

(** How the id of the latest add stands to the stored category ids: while
    stored it is the largest of them, once removed it is above them all. *)
Definition latest_ok (l : latest) (file : Document) : Prop :=
  match l with
  | NoAdd => True
  | Stored r =>
      r ∈ cat_id <$> categories file
      /\ forall k, k ∈ cat_id <$> categories file -> k <= r
  | Removed r => forall k, k ∈ cat_id <$> categories file -> k < r
  end.

(** The category ids, and the id of the latest add, are at least 1. *)
Definition latest_positive (l : latest) (file : Document) : Prop :=
  Forall (fun k => 1 <= k) (cat_id <$> categories file)
  /\ Forall (fun k => 1 <= k) (shown l).

(** Delete 4, add, add, delete 1, add, delete the id just added. *)
Definition mixed_run : list call :=
  [ DeleteCategory 4; AddCategory "A" "#111111"; AddCategory "B" "#222222";
    DeleteCategory 1; AddCategory "C" "#333333"; DeleteCategory 6 ].

(** The document once every category and activity has been deleted. *)
Definition empty_document : Document := {| categories := []; activities := [] |}.

(** Add A, add B, delete B (the largest id), add C. *)
Definition reuse_run : list call :=
  [ AddCategory "A" "#111111"; AddCategory "B" "#222222";
    DeleteCategory 2; AddCategory "C" "#333333" ].

(** Add A, add B, delete A, add C: the run the specification gives. *)
Definition spec_run : list call :=
  [ AddCategory "A" "#111111"; AddCategory "B" "#222222";
    DeleteCategory 1; AddCategory "C" "#333333" ].

(** The month before [(y, m)], as the specification words it. *)
Definition prev_pair (y m : Z) : Z * Z :=
  if decide (m = 1) then (y - 1, 12) else (y, m - 1).

(** The month after [(y, m)]. *)
Definition next_pair (y m : Z) : Z * Z :=
  if decide (m = 12) then (y + 1, 1) else (y, m + 1).

(** The view once it displays the first day of month [ym]. *)
Definition show_month (self : CalendarView) (ym : Z * Z) : CalendarView :=
  {| today := today self;
     current_date := datetime.mk ym.1 ym.2 1;
     selected_date := selected_date self |}.

(** Views at the first and at the last month a [datetime] can hold, and an
    ordinary one. *)
Definition view_of_january_year_1 : CalendarView :=
  {| today := datetime.mk 2025 1 15;
     current_date := datetime.mk 1 1 1;
     selected_date := None |}.

Definition view_of_december_year_9999 : CalendarView :=
  {| today := datetime.mk 2025 1 15;
     current_date := datetime.mk 9999 12 1;
     selected_date := None |}.

Definition view_of_january_2025 : CalendarView :=
  {| today := datetime.mk 2025 1 15;
     current_date := datetime.mk 2025 1 15;
     selected_date := Some (datetime.mk 2025 1 10) |}.

(** The ids the data model allows: every category id and every activity id
    is at least 1. *)
Definition positive_ids (file : Document) : Prop :=
  Forall (fun k => 1 <= k) (cat_id <$> categories file)
  /\ Forall (fun k => 1 <= k) (act_id <$> activities file).

(** ** MainWindow: the statistics of [_show_statistics] *)

(** One value of [cat_stats]: [{"count": ..., "duration": ...}]. *)
Record CatStat : Type := mkCatStat {
  stat_count : Z;
  stat_duration : Z
}.

(** One round of the loop that fills [cat_stats], a dictionary kept, like
    [by_category], with its keys in the order of their first insertion: a
    new key starts at count 0 and duration 0, then the entry is bumped. *)
Fixpoint stats_add (cat duration : Z) (cat_stats : list (Z * CatStat))
    : list (Z * CatStat) :=
  match cat_stats with
  | [] => [(cat, mkCatStat (0 + 1) (0 + duration))]
  | (k, st) :: rest =>
      if decide (k = cat)
      then (k, mkCatStat (stat_count st + 1) (stat_duration st + duration)) :: rest
      else (k, st) :: stats_add cat duration rest
  end.

(** [for act in activities: ...] *)
Definition cat_stats (acts : list Activity) : list (Z * CatStat) :=
  fold_left (fun stats act => stats_add (act_category_id act) (act_duration act) stats)
    acts [].

(** [sum(act["duration"] for act in activities)] *)
Definition total_duration (acts : list Activity) : Z :=
  fold_left Z.add (act_duration <$> acts) 0.

(** [len(activities)] *)
Definition total_activities (acts : list Activity) : Z :=
  Z.of_nat (length acts).

(** The data of the pie chart, drawn only when [total_duration > 0]: for
    every key of [cat_stats] a label (the name of the category, or "Unknown"
    when no category has the id), a size (the duration) and a colour (that
    of the category, or "#CCCCCC"). [None] stands for the label shown
    instead of the chart. *)
Definition pie_data (cats : gmap Z Category) (acts : list Activity)
    : option (list (string * Z * string)) :=
  if 0 <? total_duration acts
  then Some ((fun '(cat, st) =>
                match cats !! cat with
                | Some c => (cat_name c, stat_duration st, cat_color c)
                | None => ("Unknown"%string, stat_duration st, "#CCCCCC"%string)
                end) <$> cat_stats acts)
  else None.

(** The statistics read from the store: all activities, no filter. *)
Definition statistics : Store (Z * Z * list (Z * CatStat)
                                * option (list (string * Z * string))) :=
  acts ← get_activities None None None;
  cats ← get_categories;
  let cat_map := category_index cats in
  mret (total_activities acts, total_duration acts, cat_stats acts,
        pie_data cat_map acts).

(** Number of activities of a category and the sum of their durations. *)
Definition count_in (cat : Z) (acts : list Activity) : Z :=
  Z.of_nat (length (filter (fun a => act_category_id a = cat) acts)).

Definition duration_in (cat : Z) (acts : list Activity) : Z :=
  total_duration (filter (fun a => act_category_id a = cat) acts).

(** What the loop has computed once it has gone through [seen]. *)
Definition stats_of (seen : list Activity) (stats : list (Z * CatStat)) : Prop :=
  NoDup stats.*1
  /\ forall k st,
       (k, st) ∈ stats <->
       k ∈ act_category_id <$> seen
       /\ st = mkCatStat (count_in k seen) (duration_in k seen).

(** ** validators *)

(** The code of a character of a string. *)
Definition code (a : ascii) : Z := Z.of_N (N_of_ascii a).

(** The characters [str.strip()] removes, as they stand in the UTF-8 text:
    the one-byte ones (U+0009..U+000D, U+001C..U+0020), the two-byte ones
    (U+0085, U+00A0) and the three-byte ones (U+1680, U+2000..U+200A, U+2028,
    U+2029, U+202F, U+205F, U+3000). *)
Definition is_space1 (a : ascii) : bool :=
  ((9 <=? code a) && (code a <=? 13)) || ((28 <=? code a) && (code a <=? 32)).

Definition is_space2 (a b : ascii) : bool :=
  (code a =? 194) && ((code b =? 133) || (code b =? 160)).

Definition is_space3 (a b c : ascii) : bool :=
  ((code a =? 225) && (code b =? 154) && (code c =? 128))
  || ((code a =? 226) && (code b =? 128)
      && (((128 <=? code c) && (code c <=? 138))
          || (code c =? 168) || (code c =? 169) || (code c =? 175)))
  || ((code a =? 226) && (code b =? 129) && (code c =? 159))
  || ((code a =? 227) && (code b =? 128) && (code c =? 128)).

(** Drops leading characters as long as they are of the kind that [p1]
    (one byte), [p2] (two bytes) or [p3] (three bytes) recognise. *)
Fixpoint strip_front (p1 : ascii -> bool) (p2 : ascii -> ascii -> bool)
    (p3 : ascii -> ascii -> ascii -> bool) (l : list ascii) : list ascii :=
  match l with
  | [] => []
  | a :: r1 =>
      if p1 a then strip_front p1 p2 p3 r1
      else match r1 with
           | [] => l
           | b :: r2 =>
               if p2 a b then strip_front p1 p2 p3 r2
               else match r2 with
                    | [] => l
                    | c :: r3 => if p3 a b c then strip_front p1 p2 p3 r3 else l
                    end
           end
  end.

Definition lstrip (l : list ascii) : list ascii :=
  strip_front is_space1 is_space2 is_space3 l.

(** From the end the bytes of a character come last byte first. *)
Definition rstrip (l : list ascii) : list ascii :=
  reverse (strip_front is_space1 (fun b a => is_space2 a b)
             (fun c b a => is_space3 a b c) (reverse l)).

(** [text.strip()] *)
Definition py_strip (text : string) : string :=
  string_of_list_ascii (rstrip (lstrip (list_ascii_of_string text))).

(** [re.sub(r'[<>]', '', text)] *)
Definition re_sub_angle (text : string) : string :=
  string_of_list_ascii
    (filter (fun a => code a ≠ 60 /\ code a ≠ 62) (list_ascii_of_string text)).

(** [sanitize_input] *)
Definition sanitize_input (text : string) : string :=
  if decide (text = EmptyString) then EmptyString
  else py_strip (re_sub_angle text).

(** [[0-9a-fA-F]] *)
Definition is_hex (a : ascii) : bool :=
  ((48 <=? code a) && (code a <=? 57))
  || ((97 <=? code a) && (code a <=? 102))
  || ((65 <=? code a) && (code a <=? 70)).

(** [n] hexadecimal digits, and what follows them. *)
Fixpoint hex_digits (n : nat) (l : list ascii) : option (list ascii) :=
  match n with
  | O => Some l
  | S n' =>
      match l with
      | a :: r => if is_hex a then hex_digits n' r else None
      | [] => None
      end
  end.

(** [$]: the end of the string, or the place before a newline that ends
    the string. *)
Definition at_dollar (l : list ascii) : bool :=
  match l with
  | [] => true
  | [a] => code a =? 10
  | _ => false
  end.

(** [validate_color_hex]: [re.match(r'^#(?:[0-9a-fA-F]{3}){1,2}$', color)],
    the group tried twice first, then once. *)
Definition validate_color_hex (color : string) : bool :=
  match list_ascii_of_string color with
  | a :: rest =>
      (code a =? 35)
      && (from_option at_dollar false (hex_digits 6 rest)
          || from_option at_dollar false (hex_digits 3 rest))
  | [] => false
  end.

(** ** MainWindow: the handlers that write to the store *)

(** What a handler did: it showed a warning or an error box and returned,
    the user answered no to the confirmation, or it went through. *)
Inductive outcome : Type :=
  | Warned
  | Declined
  | Completed.

(** The loop of the two [save_activity] closures:
    [for cat in categories: if cat["name"] == cat_name: cat_id = cat["id"]; break]. *)
Fixpoint category_id_of_name (cats : list Category) (name : string) : option Z :=
  match cats with
  | [] => None
  | cat :: rest =>
      if decide (cat_name cat = name) then Some (cat_id cat)
      else category_id_of_name rest name
  end.

(** The checks both [save_activity] closures make before they write. The
    arguments are the contents of the form: [duration_int] is what
    [int(duration_var.get())] gives, [None] for its [ValueError]; the result
    is [None] when one of the three warnings ("Title is required.",
    "Duration must be a positive number.", "Invalid category.") is shown, and
    else the title, the duration and the category id to store. *)
Definition checked_form (cats : list Category) (title_var : string)
    (duration_int : option Z) (category_var : string)
    : option (string * Z * Z) :=
  let title := sanitize_input title_var in
  if decide (title = EmptyString) then None
  else
    match duration_int with
    | None => None
    | Some duration =>
        if duration <=? 0 then None
        else
          match category_id_of_name cats category_var with
          | None => None
          | Some cat => Some (title, duration, cat)
          end
    end.

(** [_add_activity] with its [save_activity]: the dialog is opened for the
    selected date, lists the stored categories, and is saved with the given
    contents of the form. The dialog holds the input grab, so no other
    handler runs between its opening and the save. *)
Definition _add_activity (selected_date : option datetime.t) (title_var : string)
    (duration_int : option Z) (category_var notes_text : string) : Store outcome :=
  match selected_date with
  | None => mret Warned
  | Some date =>
      cats ← get_categories;
      match checked_form cats title_var duration_int category_var with
      | None => mret Warned
      | Some (title, duration, cat) =>
          let date_str := datetime.strftime_Ymd date in
          add_activity title cat date_str duration (py_strip notes_text) ;;
          mret Completed
      end
  end.

(** [next((a for a in activities if a["id"] == activity_id), None)] *)
Fixpoint first_with (activity_id : Z) (acts : list Activity) : option Activity :=
  match acts with
  | [] => None
  | a :: rest =>
      if decide (act_id a = activity_id) then Some a else first_with activity_id rest
  end.

(** [_edit_activity] with its [save_activity]: [selected] is the id on the
    selected row of the list, if a row is selected. *)
Definition _edit_activity (selected : option Z) (title_var : string)
    (duration_int : option Z) (category_var notes_text : string) : Store outcome :=
  match selected with
  | None => mret Warned
  | Some activity_id =>
      acts ← get_activities None None None;
      match first_with activity_id acts with
      | None => mret Warned
      | Some activity =>
          cats ← get_categories;
          match checked_form cats title_var duration_int category_var with
          | None => mret Warned
          | Some (title, duration, cat) =>
              update_activity activity_id title cat duration (py_strip notes_text) ;;
              mret Completed
          end
      end
  end.

(** [_delete_activity]: [confirmed] is the answer to the confirmation. *)
Definition _delete_activity (selected : option Z) (confirmed : bool) : Store outcome :=
  match selected with
  | None => mret Warned
  | Some activity_id =>
      if confirmed then delete_activity activity_id ;; mret Completed
      else mret Declined
  end.

(** The closure [delete_category] of [_manage_categories]: a category that
    some activity uses is not deleted. *)
Definition delete_category_clicked (selected : option Z) (confirmed : bool)
    : Store outcome :=
  match selected with
  | None => mret Warned
  | Some cat =>
      acts ← get_activities None None (Some cat);
      match acts with
      | _ :: _ => mret Warned
      | [] =>
          if confirmed then delete_category cat ;; mret Completed
          else mret Declined
      end
  end.

(** The clicks that reach the store. *)
Inductive click : Type :=
  | ClickAddActivity (selected_date : option datetime.t) (title_var : string)
      (duration_int : option Z) (category_var notes_text : string)
  | ClickEditActivity (selected : option Z) (title_var : string)
      (duration_int : option Z) (category_var notes_text : string)
  | ClickDeleteActivity (selected : option Z) (confirmed : bool)
  | ClickDeleteCategory (selected : option Z) (confirmed : bool).

Definition handle (c : click) : Store outcome :=
  match c with
  | ClickAddActivity selected_date title_var duration_int category_var notes_text =>
      _add_activity selected_date title_var duration_int category_var notes_text
  | ClickEditActivity selected title_var duration_int category_var notes_text =>
      _edit_activity selected title_var duration_int category_var notes_text
  | ClickDeleteActivity selected confirmed => _delete_activity selected confirmed
  | ClickDeleteCategory selected confirmed => delete_category_clicked selected confirmed
  end.

Fixpoint handle_all (cs : list click) : Store (list outcome) :=
  match cs with
  | [] => mret []
  | c :: cs' =>
      o ← handle c;
      rest ← handle_all cs';
      mret (o :: rest)
  end.

(** Every activity refers to a stored category. *)
Definition references_ok (file : Document) : Prop :=
  Forall (fun a => act_category_id a ∈ cat_id <$> categories file) (activities file).

(** Every activity has a title that is not empty and a duration above 0. *)
Definition entries_ok (file : Document) : Prop :=
  Forall (fun a => act_title a ≠ EmptyString /\ 0 < act_duration a) (activities file).

(** Whether a text starts with a character of the kind that [p1], [p2] or
    [p3] recognise. *)
Definition starts_with (p1 : ascii -> bool) (p2 : ascii -> ascii -> bool)
    (p3 : ascii -> ascii -> ascii -> bool) (l : list ascii) : bool :=
  match l with
  | [] => false
  | a :: r1 =>
      p1 a
      || match r1 with
         | [] => false
         | b :: r2 =>
             p2 a b
             || match r2 with
                | [] => false
                | c :: _ => p3 a b c
                end
         end
  end.

(** The bytes of a text. *)
Definition bytes (text : string) : list ascii := list_ascii_of_string text.

(** A text starts, or ends, with a character that [str.strip()] removes. *)
Definition starts_with_space (l : list ascii) : bool :=
  starts_with is_space1 is_space2 is_space3 l.

Definition ends_with_space (l : list ascii) : bool :=
  starts_with is_space1 (fun b a => is_space2 a b) (fun c b a => is_space3 a b c)
    (reverse l).

(** ** calendar.monthcalendar, as the standard library computes it *)

Module calendar.

(** [_days_before_year]: the days before January 1st of year [y]. *)
Definition days_before_year (y : Z) : Z :=
  (y - 1) * 365 + (y - 1) / 4 - (y - 1) / 100 + (y - 1) / 400.

(** [_days_before_month]: the days of year [y] before the first of month [m]. *)
Definition days_before_month (y m : Z) : Z :=
  nth (Z.to_nat m) [-1; 0; 31; 59; 90; 120; 151; 181; 212; 243; 273; 304; 334] 0
  + (if (2 <? m) && datetime.is_leap y then 1 else 0).

(** [date(y, m, d).toordinal()] *)
Definition toordinal (y m d : Z) : Z :=
  days_before_year y + days_before_month y m + d.

(** [weekday(y, m, d)]: 0 is Monday, 6 is Sunday. *)
Definition weekday (y m d : Z) : Z :=
  let y := if (datetime.MINYEAR <=? y) && (y <=? datetime.MAXYEAR) then y
           else 2000 + y mod 400 in
  (toordinal y m d + 6) mod 7.

(** [monthrange(y, m)]: the weekday of the first day and the number of days;
    [None] is the [IllegalMonthError] for a month outside [1..12]. *)
Definition monthrange (y m : Z) : option (Z * Z) :=
  if (1 <=? m) && (m <=? 12)
  then Some (weekday y m 1, datetime.days_in_month y m)
  else None.

(** [list(itermonthdays(y, m))] with Monday as the first day of the week:
    zeros before the first day, the days, zeros up to the end of the week. *)
Definition itermonthdays (y m : Z) : option (list Z) :=
  '(day1, ndays) ← monthrange y m;
  let days_before := (day1 - 0) mod 7 in
  let days_after := (0 - day1 - ndays) mod 7 in
  Some (replicate (Z.to_nat days_before) 0
        ++ (Z.of_nat <$> seq 1 (Z.to_nat ndays))
        ++ replicate (Z.to_nat days_after) 0).

(** [[days[i:i+7] for i in range(0, len(days), 7)]], with at most [fuel]
    slices. *)
Fixpoint weeks (fuel : nat) (days : list Z) : list (list Z) :=
  match fuel, days with
  | S fuel', _ :: _ => take 7 days :: weeks fuel' (drop 7 days)
  | _, _ => []
  end.

(** [monthcalendar(y, m)] *)
Definition monthcalendar (y m : Z) : option (list (list Z)) :=
  days ← itermonthdays y m;
  Some (weeks (length days) days).

End calendar.

(** ** CalendarView: drawing the month *)

(** The three styles of a day label. *)
Inductive label_style : Type :=
  | CalendarDay
  | CalendarToday
  | CalendarSelected.

(** One entry of [self.day_labels] with the text and the style of its
    label. *)
Record Cell : Type := mkCell {
  cell_text : string;
  cell_style : label_style;
  cell_item : DayItem
}.

(** The first loop of [_update_calendar] on one entry: the indicator frames
    are destroyed, the label is emptied and the date is dropped. *)
Definition cleared_cell : Cell :=
  {| cell_text := EmptyString; cell_style := CalendarDay;
     cell_item := {| item_date := None; item_indicator := [] |} |}.

(** [a.year == b.year and a.month == b.month and a.day == b.day] *)
Definition same_day (a b : datetime.t) : bool :=
  (datetime.year a =? datetime.year b) && (datetime.month a =? datetime.month b)
  && (datetime.day a =? datetime.day b).

(** The style after the two tests of the loop: today's cell gets the style
    of today, then the selected cell the style of the selection. *)
Definition style_for (self : CalendarView) (cell_date : datetime.t)
    (style : label_style) : label_style :=
  let style := if same_day cell_date (today self) then CalendarToday else style in
  match selected_date self with
  | Some selected => if same_day cell_date selected then CalendarSelected else style
  | None => style
  end.

(** [str(day)] for the day of a month (a number from 0 to 99). *)
Definition str_day (day : Z) : string :=
  if day <? 10 then String (datetime.digit day) EmptyString
  else String (datetime.digit (day / 10)) (String (datetime.digit day) EmptyString).

(** The body of the second loop for one day and its entry; [None] is the
    [ValueError] of the [datetime] constructor. *)
Definition fill_cell (self : CalendarView) (day : Z) (cell : Cell)
    : Store (option Cell) :=
  if decide (day = 0) then mret (Some cell)
  else
    match datetime.new (datetime.year (current_date self))
            (datetime.month (current_date self)) day with
    | None => mret None
    | Some cell_date =>
        item ← _add_activity_indicators
                 {| item_date := Some cell_date;
                    item_indicator := item_indicator (cell_item cell) |};
        mret (Some {| cell_text := str_day day;
                      cell_style := style_for self cell_date (cell_style cell);
                      cell_item := item |})
    end.

(** The second loop, over the days of all weeks, with [day_index] counting
    the entries; [None] is the [IndexError] of [self.day_labels[day_index]]
    or the error of the body. *)
Fixpoint fill_days (self : CalendarView) (days : list Z) (day_index : nat)
    (day_labels : list Cell) : Store (option (list Cell)) :=
  match days with
  | [] => mret (Some day_labels)
  | day :: rest =>
      match day_labels !! day_index with
      | None => mret None
      | Some cell =>
          filled ← fill_cell self day cell;
          match filled with
          | None => mret None
          | Some cell' =>
              fill_days self rest (S day_index) (<[day_index := cell']> day_labels)
          end
      end
  end.

(** [_update_calendar], on the entries of [self.day_labels]; the text of
    the header is left out. *)
Definition _update_calendar (self : CalendarView) (day_labels : list Cell)
    : Store (option (list Cell)) :=
  match calendar.monthcalendar (datetime.year (current_date self))
          (datetime.month (current_date self)) with
  | None => mret None
  | Some cal => fill_days self (concat cal) 0 ((fun _ => cleared_cell) <$> day_labels)
  end.

(** [_on_date_click]: the date becomes the selection and the month is drawn
    again. The callback called last belongs to the main window; it only
    reads the store and is left out. *)
Definition _on_date_click (self : CalendarView) (date : datetime.t)
    (day_labels : list Cell) : Store (CalendarView * option (list Cell)) :=
  let self' := {| today := today self; current_date := current_date self;
                  selected_date := Some date |} in
  cells ← _update_calendar self' day_labels;
  mret (self', cells).

(** The cell drawn for day [day] of the displayed month. *)
Definition day_cell (self : CalendarView) (file : Document) (day : Z) : Cell :=
  let date := datetime.mk (datetime.year (current_date self))
                (datetime.month (current_date self)) day in
  {| cell_text := str_day day;
     cell_style := style_for self date CalendarDay;
     cell_item := result (_add_activity_indicators (mkDayItem (Some date) [])) file |}.

(** The cell drawn for an entry of the month's list of days: an empty cell
    for the padding 0, the cell of the day otherwise. *)
Definition grid_cell (self : CalendarView) (file : Document) (day : Z) : Cell :=
  if decide (day = 0) then cleared_cell else day_cell self file day.

(** The date of the cell of a day of the displayed month. *)
Definition displayed (self : CalendarView) (day : Z) : datetime.t :=
  datetime.mk (datetime.year (current_date self))
    (datetime.month (current_date self)) day.

#[global] Instance label_style_eq_dec : EqDecision label_style.
Proof. solve_decision. Defined.

#[global] Instance datetime_eq_dec : EqDecision datetime.t.
Proof. solve_decision. Defined.

(** The number of empty cells before the first day of the displayed month,
    and the number of its days. *)
Definition first_column (self : CalendarView) : nat :=
  Z.to_nat (calendar.weekday (datetime.year (current_date self))
              (datetime.month (current_date self)) 1).

Definition month_length (self : CalendarView) : nat :=
  Z.to_nat (datetime.days_in_month (datetime.year (current_date self))
              (datetime.month (current_date self))).

(** * Properties *)

(** Settles a closed decidable proposition by evaluation. *)
Ltac by_compute := apply (bool_decide_unpack _); vm_compute; exact I.

(** Runs the store operations of the goal or of a hypothesis on their file. *)
Tactic Notation "store_run" :=
  cbv [get_categories add_category delete_category get_activities add_activity
       update_activity delete_activity result after
       mbind mret Store_bind Store_ret load dump fst snd].
Tactic Notation "store_run" "in" hyp(H) :=
  cbv [get_categories add_category delete_category get_activities add_activity
       update_activity delete_activity result after
       mbind mret Store_bind Store_ret load dump fst snd] in H.

(** ** Strings and ids *)

Lemma compare_refl (s : string) : String.compare s s = Eq.
Proof.
  induction s as [|ch s IH]; simpl; [done|].
  assert (Ascii.compare ch ch = Eq) as ->; [|done].
  unfold Ascii.compare. apply N.compare_refl.
Qed.

Lemma str_le_refl (s : string) : str_le s s.
Proof. unfold str_le, String.leb. by rewrite compare_refl. Qed.

Lemma str_le_antisym (a b : string) : str_le a b -> str_le b a -> a = b.
Proof.
  unfold str_le. intros Hab Hba.
  apply String.leb_antisym; by apply Is_true_true.
Qed.

(** Only the empty string is below the empty string. *)
Lemma str_le_empty (a : string) : str_le a EmptyString <-> a = EmptyString.
Proof.
  split; [|intros ->; apply str_le_refl].
  destruct a; [done|]. unfold str_le, String.leb. simpl. intros [].
Qed.

Lemma truthy_nonempty (s : string) : s ≠ EmptyString -> truthy (Some s) = Some s.
Proof.
  intros Hs. unfold truthy.
  destruct (String.eqb_spec s EmptyString); [done|done].
Qed.

Lemma py_max_lower (x : Z) (xs : list Z) : x <= py_max x xs.
Proof.
  unfold py_max. revert x.
  induction xs as [|y ys IH]; intros x; simpl; [lia|].
  specialize (IH (Z.max x y)). lia.
Qed.

Lemma py_max_upper (x : Z) (xs : list Z) (k : Z) :
  k ∈ x :: xs -> k <= py_max x xs.
Proof.
  intros Hk. assert (k <= x \/ k ∈ xs) as Hk'.
  { apply elem_of_cons in Hk as [->|Hk]; [left; lia|by right]. }
  clear Hk. unfold py_max. revert x Hk'.
  induction xs as [|y ys IH]; intros x [Hk|Hk]; simpl.
  - done.
  - by apply elem_of_nil in Hk.
  - apply IH. left. lia.
  - apply IH. apply elem_of_cons in Hk as [->|Hk]; [left; lia|by right].
Qed.

Lemma py_max_elem (x : Z) (xs : list Z) : py_max x xs ∈ x :: xs.
Proof.
  unfold py_max. revert x.
  induction xs as [|y ys IH]; intros x; simpl; [left|].
  specialize (IH (Z.max x y)).
  apply elem_of_cons in IH as [IH|IH].
  - rewrite IH. destruct (Z.max_spec x y) as [[_ ->]|[_ ->]]; [right; left|left].
  - right. by right.
Qed.

(** The generated id is above every id of the sequence. *)
Lemma new_id_above (ids : list Z) (k : Z) : k ∈ ids -> k < new_id ids.
Proof.
  destruct ids as [|x xs]; simpl.
  - intros H. by apply elem_of_nil in H.
  - intros H. apply py_max_upper in H. lia.
Qed.

Lemma new_id_fresh (ids : list Z) : new_id ids ∉ ids.
Proof. intros H. apply new_id_above in H. lia. Qed.

Lemma new_id_positive (ids : list Z) : Forall (fun k => 1 <= k) ids -> 1 <= new_id ids.
Proof.
  destruct ids as [|x xs]; simpl; [done|].
  intros Hids. apply Forall_cons in Hids as [Hx _].
  pose proof (py_max_lower x xs). lia.
Qed.

Lemma Forall_fmap_filter {A : Type} (key : A -> Z) (Q : Z -> Prop) (P : A -> Prop)
    `{!forall x, Decision (P x)} (l : list A) :
  Forall Q (key <$> l) -> Forall Q (key <$> filter P l).
Proof.
  rewrite !Forall_fmap. intros Hl. apply Forall_forall. intros x Hx.
  apply list_elem_of_filter in Hx as [_ Hx].
  rewrite Forall_forall in Hl. by apply Hl.
Qed.

(** ** The loop of [update_activity] *)

Lemma update_first_ids id title cat dur notes (acts : list Activity) :
  act_id <$> update_first id title cat dur notes acts = act_id <$> acts.
Proof.
  induction acts as [|a acts IH]; csimpl; [done|].
  case_decide; csimpl; [done|]. by rewrite IH.
Qed.

Lemma update_first_absent id title cat dur notes (acts : list Activity) :
  id ∉ act_id <$> acts -> update_first id title cat dur notes acts = acts.
Proof.
  induction acts as [|a acts IH]; csimpl; [done|].
  intros Hid. apply not_elem_of_cons in Hid as [Hne Hid].
  case_decide; [congruence|]. by rewrite IH.
Qed.

Lemma update_first_split id title cat dur notes (before rest : list Activity) a :
  id ∉ act_id <$> before -> act_id a = id ->
  update_first id title cat dur notes (before ++ a :: rest) =
    before ++ mkActivity (act_id a) title cat (act_date a) dur notes :: rest.
Proof.
  intros Hid Ha.
  induction before as [|b before IH]; csimpl.
  - case_decide; [done|congruence].
  - csimpl in Hid. apply not_elem_of_cons in Hid as [Hne Hid].
    case_decide; [congruence|]. by rewrite IH.
Qed.

(** A list holding an element with a given key splits at the first one. *)
Lemma first_with_id (acts : list Activity) (id : Z) :
  id ∈ act_id <$> acts ->
  exists before a rest,
    acts = before ++ a :: rest /\ act_id a = id /\ id ∉ act_id <$> before.
Proof.
  induction acts as [|b acts IH]; csimpl; intros Hid.
  - by apply elem_of_nil in Hid.
  - destruct (decide (act_id b = id)) as [Heq|Hne].
    + exists [], b, acts. split_and!; [done|done|]. csimpl. apply not_elem_of_nil.
    + apply elem_of_cons in Hid as [Hid|Hid]; [congruence|].
      destruct (IH Hid) as (before & a & rest & -> & Ha & Hbefore).
      exists (b :: before), a, rest. split_and!; [done|done|].
      csimpl. apply not_elem_of_cons. split; [congruence|done].
Qed.

Lemma filter_absent_id {A : Type} (key : A -> Z) (l : list A) (id : Z) :
  id ∉ key <$> l -> filter (fun x => key x ≠ id) l = l.
Proof.
  induction l as [|x l IH]; csimpl; [done|].
  intros Hid. apply not_elem_of_cons in Hid as [Hne Hid].
  rewrite filter_cons_True; [|congruence]. by rewrite IH.
Qed.

Lemma filter_removes_id {A : Type} (key : A -> Z) (l : list A) (id : Z) :
  id ∉ key <$> filter (fun x => key x ≠ id) l.
Proof.
  intros Hin. apply list_elem_of_fmap in Hin as (x & -> & Hx).
  apply list_elem_of_filter in Hx as [Hx _]. done.
Qed.

(** ** Deleting and updating *)

(** C9: [delete_category(id)] answers [True] whether or not a category
    matched, keeps exactly the categories whose id differs (in their stored
    order, so none with the id is left), and hands the activities back as
    they were, also those that refer to the deleted category. *)
Theorem delete_category_frame (file : Document) (id : Z) :
  result (delete_category id) file = true
  /\ activities (after (delete_category id) file) = activities file
  /\ categories (after (delete_category id) file)
       = filter (fun c => cat_id c ≠ id) (categories file)
  /\ (id ∉ cat_id <$> categories (after (delete_category id) file))
  /\ filter (fun a => act_category_id a = id) (activities (after (delete_category id) file))
       = filter (fun a => act_category_id a = id) (activities file).
Proof.
  split_and!; try done.
  apply filter_removes_id.
Qed.

(** C4: on an id that no activity has, [update_activity] and
    [delete_activity] leave the whole file as it was and answer [True]; on
    an id that no category has, so does [delete_category]. The operations
    are total functions of the file: nothing is raised. *)
Theorem absent_id_is_noop (file : Document) (id : Z) (title : string)
    (category_id duration : Z) (notes : string) :
  (id ∉ act_id <$> activities file ->
     update_activity id title category_id duration notes file = (true, file)
     /\ delete_activity id file = (true, file))
  /\ (id ∉ cat_id <$> categories file ->
        delete_category id file = (true, file)).
Proof.
  destruct file as [cats acts]. split.
  - intros Hid. cbn in Hid. split.
    + store_run. cbn [categories activities].
      by rewrite update_first_absent.
    + store_run. cbn [categories activities].
      by rewrite filter_absent_id.
  - intros Hid. cbn in Hid.
    store_run. cbn [categories activities].
    by rewrite filter_absent_id.
Qed.

Lemma absent_id_is_noop_witness :
  update_activity 9 "Titre" 2 15 "" sample_document = (true, sample_document)
  /\ delete_activity 9 sample_document = (true, sample_document)
  /\ delete_category 9 sample_document = (true, sample_document).
Proof.
  destruct (absent_id_is_noop sample_document 9 "Titre" 2 15 "") as [Hact Hcat].
  split_and!; [apply Hact|apply Hact|apply Hcat]; by_compute.
Defined.

(** C5: when some activity has the id, [update_activity] replaces the first
    such activity by one with the same id and the same date and the given
    title, category id, duration and notes; the activities before and after
    it and all categories are as before. *)
Theorem update_activity_frame (file : Document) (id : Z) (title : string)
    (category_id duration : Z) (notes : string) :
  id ∈ act_id <$> activities file ->
  exists before a rest,
    activities file = before ++ a :: rest
    /\ act_id a = id
    /\ (id ∉ act_id <$> before)
    /\ update_activity id title category_id duration notes file =
         (true,
          {| categories := categories file;
             activities :=
               before
               ++ {| act_id := act_id a; act_title := title;
                     act_category_id := category_id; act_date := act_date a;
                     act_duration := duration; act_notes := notes |}
               :: rest |}).
Proof.
  intros Hid.
  destruct (first_with_id _ _ Hid) as (before & a & rest & Hsplit & Ha & Hbefore).
  exists before, a, rest. split_and!; [done..|].
  store_run. rewrite Hsplit.
  by rewrite update_first_split.
Qed.

Lemma update_activity_frame_witness :
  exists before a rest,
    activities sample_document = before ++ a :: rest
    /\ act_id a = 3
    /\ (3 ∉ act_id <$> before)
    /\ update_activity 3 "Pilates" 1 25 "salle B" sample_document =
         (true,
          {| categories := categories sample_document;
             activities :=
               before
               ++ {| act_id := act_id a; act_title := "Pilates";
                     act_category_id := 1; act_date := act_date a;
                     act_duration := 25; act_notes := "salle B" |}
               :: rest |}).
Proof.
  apply (update_activity_frame sample_document 3 "Pilates" 1 25 "salle B").
  by_compute.
Defined.

(** C8: after [delete_activity(id)], whatever the filters, [get_activities]
    returns no activity with that id; a second [delete_activity(id)] answers
    [True] and leaves the file as the first one left it. *)
Theorem delete_activity_gone_and_idempotent (file : Document) (id : Z)
    (start_date end_date : option string) (category_id : option Z) :
  (id ∉ act_id <$> result (get_activities start_date end_date category_id)
                     (after (delete_activity id) file))
  /\ delete_activity id (after (delete_activity id) file)
       = (true, after (delete_activity id) file).
Proof.
  split.
  - intros Hin. apply list_elem_of_fmap in Hin as (a & Hid & Ha).
    assert (a ∈ filter (fun a => act_id a ≠ id) (activities file)) as Hdel.
    { store_run in Ha.
      cbn [activities] in Ha.
      destruct (truthy start_date), (truthy end_date), category_id;
        rewrite ?list_elem_of_filter in Ha; rewrite list_elem_of_filter; tauto. }
    apply list_elem_of_filter in Hdel as [Hne _]. done.
  - store_run. cbn [categories activities].
    rewrite filter_absent_id; [done|]. apply filter_removes_id.
Qed.

(** ** Unique ids *)

Lemma NoDup_snoc_new_id (ids : list Z) : NoDup ids -> NoDup (ids ++ [new_id ids]).
Proof.
  intros Hids. apply NoDup_app. split_and!; [done| |apply NoDup_singleton].
  intros k Hk Hnew. apply list_elem_of_singleton in Hnew as ->.
  by apply new_id_fresh in Hk.
Qed.

Lemma NoDup_filter_key {A : Type} (key : A -> Z) (P : A -> Prop)
    `{!forall x, Decision (P x)} (l : list A) :
  NoDup (key <$> l) -> NoDup (key <$> filter P l).
Proof.
  induction l as [|x l IH]; csimpl; [done|].
  intros Hnd. apply NoDup_cons in Hnd as [Hx Hl].
  destruct (decide (P x)).
  - rewrite filter_cons_True; [|done]. csimpl. apply NoDup_cons. split; [|by apply IH].
    intros Hin. apply Hx.
    apply list_elem_of_fmap in Hin as (y & -> & Hy).
    apply list_elem_of_filter in Hy as [_ Hy].
    apply list_elem_of_fmap. by exists y.
  - rewrite filter_cons_False; [|done]. by apply IH.
Qed.

Lemma seed_unique_ids : unique_ids seed_document.
Proof. split; by_compute. Qed.

(** C3: the seeded document has unique ids, each of the five mutating
    operations keeps the ids of a document unique, and so does every run of
    such operations from the seeded document. *)
Theorem store_calls_keep_ids_unique :
  unique_ids (_initialize_db None)
  /\ (forall (file : Document) (c : call),
        unique_ids file -> unique_ids (after (perform c) file))
  /\ (forall cs : list call, unique_ids (after (perform_all cs) seed_document)).
Proof.
  assert (forall file c, unique_ids file -> unique_ids (after (perform c) file)) as Hstep.
  { intros [cats acts] c [Hcats Hacts]. cbn [categories activities] in *.
    destruct c; cbv [perform]; store_run; split; cbn [categories activities];
      try done.
    - rewrite fmap_app. by apply NoDup_snoc_new_id.
    - by apply NoDup_filter_key.
    - rewrite fmap_app. by apply NoDup_snoc_new_id.
    - by rewrite update_first_ids.
    - by apply NoDup_filter_key. }
  split_and!; [apply seed_unique_ids|done|].
  intros cs. generalize seed_unique_ids. generalize seed_document.
  induction cs as [|c cs IH]; intros file Hfile; [done|].
  specialize (Hstep file c Hfile). specialize (IH _ Hstep).
  revert IH. cbn [perform_all]. unfold after at 1 3.
  cbv [mbind mret Store_bind Store_ret snd after].
  destruct (perform c file) as [a file'].
  by destruct (perform_all cs file') as [rest file''].
Qed.

Lemma store_calls_keep_ids_unique_witness :
  unique_ids sample_document
  /\ unique_ids (after (perform (AddActivity "Piano" 2 "2025-02-01" 40 "")) sample_document).
Proof.
  assert (unique_ids sample_document) as Hsample by (split; by_compute).
  split; [done|].
  by apply (proj1 (proj2 store_calls_keep_ids_unique)).
Defined.

(** ** Filtering activities *)

Lemma get_activities_reads_only start_date end_date category_id (file : Document) :
  after (get_activities start_date end_date category_id) file = file.
Proof. done. Qed.

(** With one non-empty day as both bounds, the two date filters together
    keep the activities of that day. *)
Lemma get_activities_single_day (file : Document) (d : string) :
  d ≠ EmptyString ->
  get_activities (Some d) (Some d) None file
    = (filter (fun a => act_date a = d) (activities file), file).
Proof.
  intros Hd. store_run. rewrite !truthy_nonempty by done.
  f_equal. rewrite list_filter_filter. apply list_filter_iff. intros a. split.
  - intros [H1 H2]. by apply str_le_antisym.
  - intros <-. split; apply str_le_refl.
Qed.

(** C2: with non-empty bounds [s] and [e], [get_activities] returns the
    stored activities with [s <= date <= e] (string order, both ends
    included) that also have the category id when one is given, in their
    stored order; the filters act together. With the same non-empty day as
    both bounds it returns the activities of exactly that date. *)
Theorem get_activities_closed_range (file : Document) (s e : string)
    (c : option Z) :
  s ≠ EmptyString -> e ≠ EmptyString ->
  result (get_activities (Some s) (Some e) c) file
    = filter (in_range s e c) (activities file)
  /\ result (get_activities (Some s) (Some s) None) file
       = filter (fun a => act_date a = s) (activities file).
Proof.
  intros Hs He. split.
  - store_run. rewrite !truthy_nonempty by done.
    destruct c as [k|]; rewrite ?list_filter_filter; apply list_filter_iff;
      intros a; unfold in_range; simpl; tauto.
  - unfold result. by rewrite get_activities_single_day.
Qed.

Lemma get_activities_closed_range_witness :
  result (get_activities (Some "2025-01-10") (Some "2025-01-20") None) sample_document
    = filter (in_range "2025-01-10" "2025-01-20" None) (activities sample_document)
  /\ result (get_activities (Some "2025-01-10") (Some "2025-01-10") None) sample_document
       = filter (fun a => act_date a = "2025-01-10"%string) (activities sample_document).
Proof.
  apply (get_activities_closed_range sample_document "2025-01-10" "2025-01-20" None);
    by_compute.
Defined.

(** C10: an empty string as [start_date] or as [end_date] switches that
    filter off, as [None] does; so [end_date=""] alone returns every
    activity, where an upper bound of [""] would keep only the activities
    with an empty date. For the category only [None] switches the filter
    off: [category_id=0] keeps exactly the activities of category 0. *)
Theorem get_activities_empty_string_is_no_bound (file : Document)
    (start_date end_date : option string) (category_id : option Z) :
  result (get_activities (Some EmptyString) end_date category_id) file
    = result (get_activities None end_date category_id) file
  /\ result (get_activities start_date (Some EmptyString) category_id) file
       = result (get_activities start_date None category_id) file
  /\ result (get_activities None (Some EmptyString) None) file = activities file
  /\ filter (fun a => str_le (act_date a) EmptyString) (activities file)
       = filter (fun a => act_date a = EmptyString) (activities file)
  /\ result (get_activities None None (Some 0)) file
       = filter (fun a => act_category_id a = 0) (activities file)
  /\ result (get_activities None None None) file = activities file.
Proof.
  split_and!; try done.
  apply list_filter_iff. intros a. apply str_le_empty.
Qed.

(** ** Ids handed out by [add_category] *)

Lemma perform_all_cons (c : call) (cs : list call) (file : Document) :
  result (perform_all (c :: cs)) file
    = result (perform c) file :: result (perform_all cs) (after (perform c) file).
Proof.
  cbn [perform_all]. cbv [result after mbind mret Store_bind Store_ret fst snd].
  destruct (perform c file) as [a file'].
  by destruct (perform_all cs file') as [rest file''].
Qed.

Lemma StronglySorted_lt_NoDup (l : list Z) : StronglySorted Z.lt l -> NoDup l.
Proof.
  induction 1 as [|x l Hl IH Hx]; [apply NoDup_nil_2|].
  apply NoDup_cons. split; [|done].
  intros Hin. rewrite Forall_forall in Hx. specialize (Hx _ Hin). lia.
Qed.

(** The claim as the specification words it fails: once the category with
    the largest id is deleted, the next [add_category] hands that id out
    again. *)
Lemma add_category_reuses_largest_id :
  new_ids (result (perform_all reuse_run) empty_document) = [1; 2; 2]
  /\ ~ StronglySorted Z.lt (new_ids (result (perform_all reuse_run) empty_document))
  /\ ~ NoDup (new_ids (result (perform_all reuse_run) empty_document))
  /\ new_ids (result (perform_all
                [AddCategory "A" "#111111"; DeleteCategory 5; AddCategory "B" "#222222"])
              seed_document) = [5; 5].
Proof.
  assert (new_ids (result (perform_all reuse_run) empty_document) = [1; 2; 2]) as Hrun
    by (vm_compute; reflexivity).
  rewrite Hrun. split_and!; [done| | |vm_compute; reflexivity].
  - intros Hs. apply StronglySorted_lt_NoDup in Hs.
    apply NoDup_cons in Hs as [_ Hs]. apply NoDup_cons in Hs as [Hs _].
    apply Hs. left.
  - intros Hs. apply NoDup_cons in Hs as [_ Hs]. apply NoDup_cons in Hs as [Hs _].
    apply Hs. left.
Qed.

Lemma new_id_at_most (ids : list Z) (r : Z) :
  (forall k, k ∈ ids -> k < r) -> 1 <= r -> new_id ids <= r.
Proof.
  intros Hbelow Hr. destruct ids as [|x xs]; cbn [new_id]; [done|].
  pose proof (Hbelow _ (py_max_elem x xs)). lia.
Qed.

Lemma elem_of_ids_deleted (cats : list Category) (k j : Z) :
  j ∈ cat_id <$> filter (fun c => cat_id c ≠ k) cats
  <-> j ∈ cat_id <$> cats /\ j ≠ k.
Proof.
  rewrite !list_elem_of_fmap. split.
  - intros (c & -> & Hc). apply list_elem_of_filter in Hc as [Hne Hc].
    split; [by exists c|done].
  - intros [(c & -> & Hc) Hne]. exists c. split; [done|].
    by apply list_elem_of_filter.
Qed.

Lemma StronglySorted_lt_cons2 (r r' : Z) (l : list Z) :
  r < r' -> StronglySorted Z.lt (r :: r' :: l) <-> StronglySorted Z.lt (r' :: l).
Proof.
  intros Hr. split.
  - intros Hs. by apply StronglySorted_inv in Hs as [Hs _].
  - intros Hs. constructor; [done|].
    apply StronglySorted_inv in Hs as [_ Hl].
    constructor; [done|]. eapply Forall_impl; [done|]. cbn. lia.
Qed.

(** From any point of a run on: the ids handed out from there on, after the
    id of the latest add, are strictly increasing when [keeps_latest] holds,
    and only then when the ids are at least 1. *)
Lemma ids_increase_from (cs : list call) :
  Forall is_category_call cs ->
  forall (l : latest) (file : Document),
    latest_ok l file ->
    (keeps_latest l cs file ->
     StronglySorted Z.lt (shown l ++ new_ids (result (perform_all cs) file)))
    /\ (latest_positive l file ->
        StronglySorted Z.lt (shown l ++ new_ids (result (perform_all cs) file)) ->
        keeps_latest l cs file).
Proof.
  induction 1 as [|c cs Hc Hcs IH]; intros l file Hok.
  { split; [|done]. intros _. destruct l; cbn; repeat constructor. }
  rewrite perform_all_cons.
  destruct c as [name color|k| | |]; try done.
  - (* add_category *)
    set (r' := new_id (cat_id <$> categories file)).
    set (file' := after (perform (AddCategory name color)) file).
    change (new_ids (result (perform (AddCategory name color)) file
                     :: result (perform_all cs) file'))
      with (r' :: new_ids (result (perform_all cs) file')).
    assert (cat_id <$> categories file' = (cat_id <$> categories file) ++ [r']) as Hids.
    { unfold file'. cbv [perform]. store_run. cbn [categories]. by rewrite fmap_app. }
    assert (latest_ok (Stored r') file') as Hok'.
    { cbn [latest_ok]. rewrite Hids. split; [apply elem_of_app; right; left|].
      intros j Hj. apply elem_of_app in Hj as [Hj|Hj].
      - apply new_id_above in Hj. fold r' in Hj. lia.
      - apply list_elem_of_singleton in Hj. lia. }
    assert (Forall (fun k => 1 <= k) (cat_id <$> categories file) ->
            latest_positive (Stored r') file') as Hpos'.
    { intros Hpos. unfold latest_positive. rewrite Hids. cbn [shown].
      pose proof (new_id_positive _ Hpos). fold r' in H.
      split; [apply Forall_app; split; [done|]|]; by apply Forall_singleton. }
    destruct (IH (Stored r') file' Hok') as [IHkeep IHonly]. cbn [shown app] in *.
    destruct l as [|r|r]; cbn [shown app keeps_latest track].
    + split; [done|]. intros [Hpos _]. by apply IHonly, Hpos'.
    + assert (r < r') as Hr by (destruct Hok as [Hr _]; by apply new_id_above in Hr).
      rewrite (StronglySorted_lt_cons2 _ _ _ Hr).
      split; [done|]. intros [Hpos _]. by apply IHonly, Hpos'.
    + split; [done|]. intros [Hpos Hr] Hs. apply Forall_cons in Hr as [Hr _].
      pose proof (new_id_at_most _ _ Hok Hr) as Hle. fold r' in Hle.
      apply StronglySorted_inv in Hs as [_ Hs]. apply Forall_cons in Hs as [Hs _]. lia.
  - (* delete_category *)
    set (file' := after (perform (DeleteCategory k)) file).
    change (new_ids (result (perform (DeleteCategory k)) file
                     :: result (perform_all cs) file'))
      with (new_ids (result (perform_all cs) file')).
    assert (forall j, j ∈ cat_id <$> categories file'
                      <-> j ∈ cat_id <$> categories file /\ j ≠ k) as Hids.
    { intros j. unfold file'. cbv [perform]. store_run. cbn [categories].
      apply elem_of_ids_deleted. }
    assert (Forall (fun k => 1 <= k) (cat_id <$> categories file) ->
            Forall (fun k => 1 <= k) (cat_id <$> categories file')) as Hpos'.
    { rewrite !Forall_forall. intros Hpos j Hj. apply Hpos. by apply Hids. }
    assert (shown (track (DeleteCategory k) file l) = shown l) as Hshown.
    { destruct l; cbn [track shown]; [done| |done]. by case_decide. }
    assert (latest_ok (track (DeleteCategory k) file l) file') as Hok'.
    { destruct l as [|r|r]; cbn [track]; [done| |].
      - destruct Hok as [Hr Hmax]. case_decide as Hk.
        + subst k. intros j Hj. apply Hids in Hj as [Hj Hne].
          specialize (Hmax j Hj). lia.
        + split; [apply Hids; split; [done|congruence]|].
          intros j Hj. apply Hmax. by apply Hids.
      - intros j Hj. apply Hok. by apply Hids. }
    destruct (IH _ file' Hok') as [IHkeep IHonly]. rewrite Hshown in *.
    assert (keeps_latest l (DeleteCategory k :: cs) file
            <-> keeps_latest (track (DeleteCategory k) file l) cs file') as ->.
    { by destruct l. }
    split; [done|]. intros [Hpos Hl]. apply IHonly.
    split; [by apply Hpos'|by rewrite Hshown].
Qed.

(** C1 (as the code has it): in a run of [add_category] and
    [delete_category] calls from any document, the ids handed out are
    strictly increasing, hence pairwise distinct, when no add of the run
    comes after a delete that removed the id handed out by the latest add
    before it; from a document whose category ids are at least 1 they are
    strictly increasing in no other run. *)
Theorem add_category_ids_increase (file : Document) (cs : list call) :
  Forall is_category_call cs ->
  (keeps_latest NoAdd cs file ->
   StronglySorted Z.lt (new_ids (result (perform_all cs) file))
   /\ NoDup (new_ids (result (perform_all cs) file)))
  /\ (Forall (fun k => 1 <= k) (cat_id <$> categories file) ->
      StronglySorted Z.lt (new_ids (result (perform_all cs) file)) ->
      keeps_latest NoAdd cs file).
Proof.
  intros Hcs.
  destruct (ids_increase_from cs Hcs NoAdd file) as [Hkeep Honly]; [done|].
  cbn [shown app] in *. split.
  - intros Hk. specialize (Hkeep Hk). split; [done|by apply StronglySorted_lt_NoDup].
  - intros Hpos. apply Honly. split; [done|constructor].
Qed.

Lemma add_category_ids_increase_witness :
  new_ids (result (perform_all mixed_run) seed_document) = [4; 5; 6]
  /\ StronglySorted Z.lt (new_ids (result (perform_all mixed_run) seed_document))
  /\ NoDup (new_ids (result (perform_all mixed_run) seed_document))
  /\ keeps_latest NoAdd mixed_run seed_document.
Proof.
  assert (Forall is_category_call mixed_run) as Hcs by by_compute.
  destruct (add_category_ids_increase seed_document mixed_run Hcs) as [Hkeep Honly].
  destruct Hkeep as [Hs Hnd]; [by_compute|].
  split_and!; [by vm_compute|done|done|].
  apply Honly; [by_compute|done].
Defined.

(** The run of the specification: the third add gets id 3. *)
Example spec_run_ids :
  new_ids (result (perform_all spec_run) empty_document) = [1; 2; 3].
Proof. vm_compute. reflexivity. Qed.

(** ** Month navigation *)

Lemma days_in_month_lower (y m : Z) : 28 <= datetime.days_in_month y m.
Proof.
  unfold datetime.days_in_month.
  repeat match goal with |- context [if ?b then _ else _] => destruct b end; lia.
Qed.

Lemma first_of_month (y m : Z) :
  datetime.new y m 1 =
    if decide (datetime.MINYEAR <= y <= datetime.MAXYEAR /\ 1 <= m <= 12)
    then Some (datetime.mk y m 1) else None.
Proof.
  unfold datetime.new. pose proof (days_in_month_lower y m).
  case_decide as Hr.
  - destruct Hr as [[? ?] [? ?]].
    rewrite !(proj2 (Z.leb_le _ _)) by lia. done.
  - destruct (Z.leb_spec datetime.MINYEAR y); [|done].
    destruct (Z.leb_spec y datetime.MAXYEAR); [|done].
    destruct (Z.leb_spec 1 m); [|done].
    destruct (Z.leb_spec m 12); [|done].
    exfalso. apply Hr. lia.
Qed.

(** The claim as the specification words it fails at the two ends of the
    years a [datetime] can hold: from January of year 1 there is no previous
    month to show, from December of year 9999 no next one. *)
Lemma month_navigation_stops_at_year_bounds :
  datetime.valid (current_date view_of_january_year_1)
  /\ _prev_month view_of_january_year_1 = None
  /\ _prev_month view_of_january_year_1
       ≠ Some (show_month view_of_january_year_1 (1 - 1, 12))
  /\ datetime.valid (current_date view_of_december_year_9999)
  /\ _next_month view_of_december_year_9999 = None
  /\ _next_month view_of_december_year_9999
       ≠ Some (show_month view_of_december_year_9999 (9999 + 1, 1)).
Proof. split_and!; by vm_compute. Qed.

(** C7 (as the code has it): for a displayed date with month in [1..12] and
    year in [MINYEAR..MAXYEAR], [_prev_month] shows December of the year
    before when the month is January and the month before otherwise, and
    [_next_month] shows January of the year after when the month is December
    and the month after otherwise, whenever the year stays within
    [MINYEAR..MAXYEAR]; the new date depends on the year and the month alone,
    and the other fields of the view are kept. *)
Theorem month_navigation (t : datetime.t) (y m d : Z) (sel : option datetime.t) :
  1 <= m <= 12 ->
  datetime.MINYEAR <= y <= datetime.MAXYEAR ->
  _prev_month (mkCalendarView t (datetime.mk y m d) sel)
    = (if decide (datetime.MINYEAR <= (prev_pair y m).1)
       then Some (show_month (mkCalendarView t (datetime.mk y m d) sel) (prev_pair y m))
       else None)
  /\ _next_month (mkCalendarView t (datetime.mk y m d) sel)
       = (if decide ((next_pair y m).1 <= datetime.MAXYEAR)
          then Some (show_month (mkCalendarView t (datetime.mk y m d) sel) (next_pair y m))
          else None).
Proof.
  intros Hm Hy. unfold _prev_month, _next_month, prev_pair, next_pair, show_month.
  cbn [current_date today selected_date datetime.year datetime.month].
  split.
  - destruct (decide (m = 1)) as [->|Hne].
    + change (1 - 1 <? 1) with true. cbn iota. rewrite first_of_month.
      cbn [fst snd]. repeat case_decide; try done; exfalso; lia.
    + destruct (Z.ltb_spec (m - 1) 1); [lia|]. rewrite first_of_month.
      cbn [fst snd]. repeat case_decide; try done; exfalso; lia.
  - destruct (decide (m = 12)) as [->|Hne].
    + change (12 + 1 >? 12) with true. cbn iota. rewrite first_of_month.
      cbn [fst snd]. repeat case_decide; try done; exfalso; lia.
    + assert ((m + 1 >? 12) = false) as -> by lia. rewrite first_of_month.
      cbn [fst snd]. repeat case_decide; try done; exfalso; lia.
Qed.

Lemma month_navigation_witness :
  _prev_month view_of_january_2025
    = Some (show_month view_of_january_2025 (2024, 12))
  /\ _next_month view_of_january_2025
       = Some (show_month view_of_january_2025 (2025, 2)).
Proof.
  apply (month_navigation (datetime.mk 2025 1 15) 2025 1 15
           (Some (datetime.mk 2025 1 10))); by_compute.
Defined.

(** ** Indicators of a calendar cell *)

Lemma strftime_Ymd_nonempty (date : datetime.t) :
  datetime.strftime_Ymd date ≠ EmptyString.
Proof. done. Qed.

Lemma category_index_from (cats : list Category) (m : gmap Z Category) (k : Z) :
  match fold_left (fun m cat => <[cat_id cat := cat]> m) cats m !! k with
  | Some c => (c ∈ cats /\ cat_id c = k) \/ ((k ∉ cat_id <$> cats) /\ m !! k = Some c)
  | None => (k ∉ cat_id <$> cats) /\ m !! k = None
  end.
Proof.
  revert m. induction cats as [|cat cats IH]; intros m; csimpl.
  - destruct (m !! k); [right|]; split; try done; apply not_elem_of_nil.
  - specialize (IH (<[cat_id cat := cat]> m)).
    destruct (fold_left _ cats _ !! k) as [c|].
    + destruct IH as [[Hin Hk]|[Hnot Hm]].
      * left. split; [by right|done].
      * destruct (decide (cat_id cat = k)) as [Heq|Hne].
        -- rewrite <- Heq, lookup_insert_eq in Hm. injection Hm as ->.
           left. split; [left|done].
        -- rewrite lookup_insert_ne in Hm by done.
           right. split; [|done]. apply not_elem_of_cons. split; [congruence|done].
    + destruct IH as [Hnot Hm].
      destruct (decide (cat_id cat = k)) as [Heq|Hne].
      * by rewrite <- Heq, lookup_insert_eq in Hm.
      * rewrite lookup_insert_ne in Hm by done.
        split; [|done]. apply not_elem_of_cons. split; [congruence|done].
Qed.

Lemma category_index_Some (cats : list Category) (k : Z) (c : Category) :
  category_index cats !! k = Some c -> c ∈ cats /\ cat_id c = k.
Proof.
  intros H. pose proof (category_index_from cats ∅ k) as Hfrom.
  unfold category_index in H. rewrite H in Hfrom.
  destruct Hfrom as [?|[_ Hempty]]; [done|]. by rewrite lookup_empty in Hempty.
Qed.

Lemma category_index_is_Some (cats : list Category) (k : Z) :
  is_Some (category_index cats !! k) <-> k ∈ cat_id <$> cats.
Proof.
  pose proof (category_index_from cats ∅ k) as Hfrom.
  unfold category_index. destruct (fold_left _ cats ∅ !! k) as [c|].
  - split; [intros _|by eauto].
    destruct Hfrom as [[Hin <-]|[_ Hempty]].
    + apply list_elem_of_fmap. by exists c.
    + by rewrite lookup_empty in Hempty.
  - destruct Hfrom as [Hnot _]. split; [by intros [? ?]|done].
Qed.

Lemma group_add_keys (k : Z) (a : Activity) (g : list (Z * list Activity)) :
  (group_add k a g).*1 = if decide (k ∈ g.*1) then g.*1 else g.*1 ++ [k].
Proof.
  induction g as [|[j acts] g IH]; [done|].
  cbn [group_add].
  destruct (decide (j = k)) as [->|Hne]; rewrite !fmap_cons; cbn [fst].
  - rewrite decide_True; [done|left].
  - rewrite IH. destruct (decide (k ∈ g.*1)) as [Hin|Hnot].
    + rewrite decide_True; [done|by right].
    + rewrite decide_False; [done|].
      apply not_elem_of_cons. split; [congruence|done].
Qed.

Lemma group_keys_from (acts : list Activity) (g : list (Z * list Activity)) :
  NoDup g.*1 ->
  NoDup (fold_left (fun by_category a => group_add (act_category_id a) a by_category)
           acts g).*1
  /\ forall k,
       k ∈ (fold_left (fun by_category a => group_add (act_category_id a) a by_category)
              acts g).*1
       <-> k ∈ g.*1 \/ k ∈ act_category_id <$> acts.
Proof.
  revert g. induction acts as [|a acts IH]; intros g Hg; csimpl.
  - split; [done|]. intros k. split; [by left|]. intros [?|H]; [done|].
    by apply elem_of_nil in H.
  - assert (NoDup (group_add (act_category_id a) a g).*1) as Hg'.
    { rewrite group_add_keys. case_decide as Hin; [done|].
      apply NoDup_app. split_and!; [done| |apply NoDup_singleton].
      intros k Hk Hk'. apply list_elem_of_singleton in Hk' as ->. done. }
    destruct (IH _ Hg') as [Hnd Hkeys]. split; [done|].
    intros k. rewrite Hkeys, group_add_keys, elem_of_cons.
    case_decide as Hin.
    + split; [tauto|]. intros [?|[->|?]]; tauto.
    + rewrite elem_of_app, list_elem_of_singleton. tauto.
Qed.

Lemma group_by_category_keys (acts : list Activity) :
  NoDup (group_by_category acts).*1
  /\ forall k, k ∈ (group_by_category acts).*1 <-> k ∈ act_category_id <$> acts.
Proof.
  destruct (group_keys_from acts [] (NoDup_nil_2)) as [Hnd Hkeys].
  split; [done|]. intros k. unfold group_by_category. rewrite Hkeys.
  split; [|by right]. intros [H|?]; [|done]. by apply elem_of_nil in H.
Qed.

Lemma indicator_frames_keys (cats : gmap Z Category) (g : list (Z * list Activity)) :
  Forall2 (fun k colour => exists c, cats !! k = Some c /\ cat_color c = colour)
    (filter (fun k => is_Some (cats !! k)) g.*1) (indicator_frames cats g).
Proof.
  unfold indicator_frames.
  induction g as [|[k acts] g IH]; csimpl; [constructor|].
  destruct (cats !! k) as [c|] eqn:Hk.
  - rewrite filter_cons_True by (by rewrite Hk; eauto).
    csimpl. constructor; [by exists c|done].
  - rewrite filter_cons_False by (rewrite Hk; by intros [? ?]). done.
Qed.

(** C6: for a cell that carries a date, [_add_activity_indicators] packs
    one frame per category id [k] such that some stored activity of that
    date has category id [k] and some stored category has id [k]: the ids
    [ks] behind the frames are pairwise distinct, and every frame has the
    colour of a category with its id. An activity whose category id matches
    no category adds no frame. The file is only read. *)
Theorem indicators_one_per_category (file : Document) (date : datetime.t)
    (shown : list string) :
  exists (ks : list Z) (frames : list string),
    _add_activity_indicators {| item_date := Some date; item_indicator := shown |} file
      = ({| item_date := Some date; item_indicator := shown ++ frames |}, file)
    /\ NoDup ks
    /\ (forall k,
          k ∈ ks <->
          (exists a, a ∈ activities file
                     /\ act_date a = datetime.strftime_Ymd date
                     /\ act_category_id a = k)
          /\ (exists c, c ∈ categories file /\ cat_id c = k))
    /\ Forall2 (fun k colour =>
                  exists c, c ∈ categories file /\ cat_id c = k /\ cat_color c = colour)
         ks frames.
Proof.
  set (date_str := datetime.strftime_Ymd date).
  set (acts := filter (fun a => act_date a = date_str) (activities file)).
  set (cats := category_index (categories file)).
  exists (filter (fun k => is_Some (cats !! k)) (group_by_category acts).*1),
         (indicator_frames cats (group_by_category acts)).
  destruct (group_by_category_keys acts) as [Hnd Hkeys].
  split_and!.
  - unfold _add_activity_indicators. cbn [item_date item_indicator].
    fold date_str. cbv [mbind mret Store_bind Store_ret].
    rewrite (get_activities_single_day file date_str (strftime_Ymd_nonempty date)).
    done.
  - by apply NoDup_filter.
  - intros k. rewrite list_elem_of_filter, Hkeys.
    unfold cats. rewrite category_index_is_Some, !list_elem_of_fmap.
    split.
    + intros [(c & Hk & Hc) (a & Hk' & Ha)].
      apply list_elem_of_filter in Ha as [Hdate Ha].
      split; [exists a; split_and!; [done|exact Hdate|done]|exists c; by split].
    + intros [(a & Ha & Hdate & Hk) (c & Hc & Hid)]. split.
      * exists c. by split.
      * exists a. split; [done|]. by apply list_elem_of_filter.
  - eapply Forall2_impl; [apply indicator_frames_keys|].
    intros k colour (c & Hc & Hcolour). apply category_index_Some in Hc as [Hin Hid].
    exists c. by split_and!.
Qed.

(** Two activities of one category give one frame, activities of two
    categories give two, and an activity of an unknown category gives none. *)
Example indicators_of_a_day :
  result (_add_activity_indicators (mkDayItem (Some (datetime.mk 2025 1 10)) []))
    {| categories := categories seed_document;
       activities :=
         [ mkActivity 1 "Footing" 1 "2025-01-10" 30 "";
           mkActivity 2 "Roman" 2 "2025-01-10" 45 "";
           mkActivity 3 "Natation" 1 "2025-01-10" 60 "";
           mkActivity 4 "Sieste" 7 "2025-01-10" 20 "";
           mkActivity 5 "Yoga" 3 "2025-01-11" 20 "" ] |}
  = mkDayItem (Some (datetime.mk 2025 1 10)) ["#FF5733"; "#33A8FF"].
Proof. vm_compute. reflexivity. Qed.

(** * Further properties of the code *)

(** ** The store: round trips and compositions *)

Lemma str_le_trans (a b c : string) : str_le a b -> str_le b c -> str_le a c.
Proof.
  unfold str_le, String.leb. revert b c.
  induction a as [|x a IH]; intros [|y b] [|z c]; simpl; try done.
  unfold Ascii.compare.
  destruct (N.compare_spec (N_of_ascii x) (N_of_ascii y)) as [Hxy|Hxy|Hxy];
    destruct (N.compare_spec (N_of_ascii y) (N_of_ascii z)) as [Hyz|Hyz|Hyz];
    try done.
  - rewrite Hxy, Hyz, N.compare_refl. apply IH.
  - rewrite Hxy. by rewrite (proj2 (N.compare_lt_iff _ _) Hyz).
  - rewrite <- Hyz. by rewrite (proj2 (N.compare_lt_iff _ _) Hxy).
  - assert (N_of_ascii x < N_of_ascii z)%N as Hxz by lia.
    by rewrite (proj2 (N.compare_lt_iff _ _) Hxz).
Qed.

Lemma update_first_twice id t1 c1 d1 n1 t2 c2 d2 n2 (acts : list Activity) :
  update_first id t2 c2 d2 n2 (update_first id t1 c1 d1 n1 acts)
    = update_first id t2 c2 d2 n2 acts.
Proof.
  induction acts as [|a acts IH]; [done|]. cbn [update_first].
  destruct (decide (act_id a = id)) as [Heq|Hne]; cbn [update_first act_id act_date].
  - by rewrite decide_True.
  - rewrite decide_False by done. by rewrite IH.
Qed.

Lemma update_first_filtered id t c d n (acts : list Activity) :
  filter (fun a => act_id a ≠ id) (update_first id t c d n acts)
    = filter (fun a => act_id a ≠ id) acts.
Proof.
  induction acts as [|a acts IH]; [done|]. cbn [update_first].
  destruct (decide (act_id a = id)) as [Heq|Hne].
  - rewrite !filter_cons_False; [done| |]; cbn [act_id]; by intros [].
  - rewrite !filter_cons_True by done. by rewrite IH.
Qed.

Lemma update_first_ids_dates id t c d n (acts : list Activity) :
  (fun a => (act_id a, act_date a)) <$> update_first id t c d n acts
    = (fun a => (act_id a, act_date a)) <$> acts.
Proof.
  induction acts as [|a acts IH]; [done|]. cbn [update_first].
  case_decide; csimpl; [done|]. by rewrite IH.
Qed.

Lemma filter_comm {A : Type} (P Q : A -> Prop) `{!forall x, Decision (P x)}
    `{!forall x, Decision (Q x)} (l : list A) :
  filter P (filter Q l) = filter Q (filter P l).
Proof. rewrite !list_filter_filter. apply list_filter_iff. tauto. Qed.

Lemma filter_none {A : Type} (P : A -> Prop) `{!forall x, Decision (P x)}
    (l : list A) :
  (forall x, ~ P x) -> filter P l = [].
Proof.
  intros HP. induction l as [|x l IH]; [done|].
  by rewrite filter_cons_False.
Qed.

(** X1: adding a category and then deleting the id that was handed back
    leaves the file exactly as it was before the add; the same holds for
    adding an activity and deleting it. *)
Theorem add_then_delete_restores (file : Document) (name color title date notes : string)
    (category_id duration : Z) :
  delete_category (result (add_category name color) file)
      (after (add_category name color) file) = (true, file)
  /\ delete_activity (result (add_activity title category_id date duration notes) file)
        (after (add_activity title category_id date duration notes) file)
      = (true, file).
Proof.
  destruct file as [cats acts]. split; store_run; cbn [categories activities].
  - rewrite filter_app, filter_absent_id by apply new_id_fresh.
    rewrite filter_cons_False by (cbn [cat_id]; by intros []).
    by rewrite filter_nil, app_nil_r.
  - rewrite filter_app, filter_absent_id by apply new_id_fresh.
    rewrite filter_cons_False by (cbn [act_id]; by intros []).
    by rewrite filter_nil, app_nil_r.
Qed.

(** X2: an activity added for a date and a category is what
    [get_activities] for that day and that category returns last, after the
    activities it returned before; its id is one no stored activity had. *)
Theorem add_activity_then_get (file : Document) (title date notes : string)
    (category_id duration : Z) :
  (result (add_activity title category_id date duration notes) file
     ∉ act_id <$> activities file)
  /\ result (get_activities (Some date) (Some date) (Some category_id))
        (after (add_activity title category_id date duration notes) file)
      = result (get_activities (Some date) (Some date) (Some category_id)) file
        ++ [ mkActivity (result (add_activity title category_id date duration notes) file)
               title category_id date duration notes ]
  /\ result (get_activities None None None)
        (after (add_activity title category_id date duration notes) file)
      = activities file
        ++ [ mkActivity (result (add_activity title category_id date duration notes) file)
               title category_id date duration notes ].
Proof.
  split_and!; [apply new_id_fresh| |done].
  store_run. cbn [activities].
  set (new := mkActivity _ title category_id date duration notes).
  assert (forall (P : Activity -> Prop) `{!forall x, Decision (P x)} l,
            P new -> filter P (l ++ [new]) = filter P l ++ [new]) as Hlast.
  { intros P ? l HP. rewrite filter_app. by rewrite filter_cons_True. }
  destruct (truthy (Some date)) as [d|] eqn:Hd.
  - assert (d = date) as ->.
    { unfold truthy in Hd. destruct (String.eqb date EmptyString); congruence. }
    rewrite !Hlast; first [reflexivity|apply str_le_refl].
  - by rewrite Hlast.
Qed.

(** X3: of two [update_activity] calls on the same id the second one wins:
    the file is the one the second call alone would leave. In particular
    repeating an update changes nothing more. *)
Theorem update_activity_last_wins (file : Document) (id : Z)
    (title1 title2 notes1 notes2 : string) (cat1 cat2 dur1 dur2 : Z) :
  after (update_activity id title2 cat2 dur2 notes2)
    (after (update_activity id title1 cat1 dur1 notes1) file)
  = after (update_activity id title2 cat2 dur2 notes2) file.
Proof. store_run. cbn [categories activities]. by rewrite update_first_twice. Qed.

(** X4: an update is void once the activity is deleted: updating an id and
    then deleting it leaves the file that deleting it alone leaves. *)
Theorem update_then_delete (file : Document) (id : Z) (title notes : string)
    (category_id duration : Z) :
  after (delete_activity id)
    (after (update_activity id title category_id duration notes) file)
  = after (delete_activity id) file.
Proof. store_run. cbn [categories activities]. by rewrite update_first_filtered. Qed.

(** X5: whatever its arguments, [update_activity] keeps the categories, the
    number of activities, and the id and the date of the activity at every
    position. *)
Theorem update_activity_keeps_ids_and_dates (file : Document) (id : Z)
    (title notes : string) (category_id duration : Z) :
  categories (after (update_activity id title category_id duration notes) file)
    = categories file
  /\ length (activities (after (update_activity id title category_id duration notes) file))
       = length (activities file)
  /\ (fun a => (act_id a, act_date a))
       <$> activities (after (update_activity id title category_id duration notes) file)
     = (fun a => (act_id a, act_date a)) <$> activities file.
Proof.
  store_run. cbn [categories activities].
  pose proof (update_first_ids_dates id title category_id duration notes
                (activities file)) as Hsame.
  split_and!; [done| |done].
  apply (f_equal length) in Hsame. by rewrite !length_fmap in Hsame.
Qed.

(** X6: with an inverted range, a non-empty start date that is above the
    non-empty end date in string order, [get_activities] returns nothing. *)
Theorem get_activities_inverted_range (file : Document) (s e : string)
    (c : option Z) :
  s ≠ EmptyString -> e ≠ EmptyString -> ~ str_le s e ->
  result (get_activities (Some s) (Some e) c) file = [].
Proof.
  intros Hs He Hinv. store_run. rewrite !truthy_nonempty by done.
  assert (filter (fun a => str_le (act_date a) e)
            (filter (fun a => str_le s (act_date a)) (activities file)) = []) as ->.
  { rewrite list_filter_filter. apply filter_none.
    intros a [Hle Hge]. apply Hinv. by apply (str_le_trans _ (act_date a)). }
  by destruct c.
Qed.

Lemma get_activities_inverted_range_witness :
  result (get_activities (Some "2025-01-20") (Some "2025-01-10") None) sample_document = [].
Proof.
  apply (get_activities_inverted_range sample_document "2025-01-20" "2025-01-10" None);
    by_compute.
Defined.

(** X7: whatever the filters, [get_activities] returns stored activities
    only, each at most once per stored occurrence and in the stored order,
    and leaves the file alone. *)
Theorem get_activities_sublist (file : Document) (start_date end_date : option string)
    (category_id : option Z) :
  result (get_activities start_date end_date category_id) file
    `sublist_of` activities file
  /\ after (get_activities start_date end_date category_id) file = file.
Proof.
  split; [|done]. store_run.
  destruct (truthy start_date), (truthy end_date), category_id;
    repeat (etrans; [apply sublist_filter|]); done.
Qed.

(** A property that every call keeps is kept by every run of calls. *)
Lemma perform_all_keeps (I : Document -> Prop) :
  (forall file c, I file -> I (after (perform c) file)) ->
  forall cs file, I file -> I (after (perform_all cs) file).
Proof.
  intros Hstep cs. induction cs as [|c cs IH]; intros file Hfile; [done|].
  specialize (IH _ (Hstep file c Hfile)). revert IH.
  cbn [perform_all]. cbv [mbind mret Store_bind Store_ret snd after].
  destruct (perform c file) as [a file'].
  by destruct (perform_all cs file') as [rest file''].
Qed.

(** X8: ids stay positive: when every stored id is at least 1, the id that
    [add_category] hands out is at least 1, and after any of the five
    mutating calls, hence after any run of them from the seeded document,
    every stored id is at least 1. *)
Theorem store_calls_keep_ids_positive :
  (forall (file : Document) (name color : string),
     positive_ids file -> 1 <= result (add_category name color) file)
  /\ (forall (file : Document) (c : call),
        positive_ids file -> positive_ids (after (perform c) file))
  /\ (forall cs : list call, positive_ids (after (perform_all cs) seed_document)).
Proof.
  assert (forall file c, positive_ids file -> positive_ids (after (perform c) file))
    as Hstep.
  { intros [cats acts] c [Hcats Hacts]. cbn [categories activities] in *.
    destruct c; cbv [perform]; store_run; split; cbn [categories activities];
      try done.
    - rewrite fmap_app. apply Forall_app. split; [done|].
      apply Forall_singleton. by apply new_id_positive.
    - by apply Forall_fmap_filter.
    - rewrite fmap_app. apply Forall_app. split; [done|].
      apply Forall_singleton. by apply new_id_positive.
    - by rewrite update_first_ids.
    - by apply Forall_fmap_filter. }
  split_and!; [|done|].
  - intros file name color [Hcats _]. store_run. by apply new_id_positive.
  - intros cs. apply perform_all_keeps; [done|].
    split; by_compute.
Qed.

Lemma store_calls_keep_ids_positive_witness :
  1 <= result (add_category "Cuisine" "#ABCDEF") sample_document
  /\ positive_ids (after (perform (DeleteActivity 2)) sample_document).
Proof.
  assert (positive_ids sample_document) as Hsample.
  { split; by_compute. }
  destruct store_calls_keep_ids_positive as (Hadd & Hstep & _).
  split; [by apply Hadd|by apply Hstep].
Defined.

(** X9: deletes commute: two [delete_activity] calls, two [delete_category]
    calls, or one of each leave the same file in either order. *)
Theorem deletes_commute (file : Document) (i j : Z) :
  after (delete_activity i) (after (delete_activity j) file)
    = after (delete_activity j) (after (delete_activity i) file)
  /\ after (delete_category i) (after (delete_category j) file)
       = after (delete_category j) (after (delete_category i) file)
  /\ after (delete_category i) (after (delete_activity j) file)
       = after (delete_activity j) (after (delete_category i) file).
Proof.
  store_run. cbn [categories activities].
  split_and!; [| |done]; f_equal; apply filter_comm.
Qed.

(** ** The calendar: navigating there and back *)

(** X10: from a displayed date with month in [1..12] and year in
    [MINYEAR..MAXYEAR], going to the next month and then to the previous one
    (unless the display is at December of [MAXYEAR]), or to the previous one
    and then to the next (unless it is at January of [MINYEAR]), shows the
    first day of the month the view started from, with today's date and the
    selection kept; the day of the month that was displayed is not kept. *)
Theorem month_navigation_round_trip (t : datetime.t) (y m d : Z)
    (sel : option datetime.t) :
  1 <= m <= 12 ->
  datetime.MINYEAR <= y <= datetime.MAXYEAR ->
  ((y, m) ≠ (datetime.MAXYEAR, 12) ->
     _next_month (mkCalendarView t (datetime.mk y m d) sel) ≫= _prev_month
       = Some (mkCalendarView t (datetime.mk y m 1) sel))
  /\ ((y, m) ≠ (datetime.MINYEAR, 1) ->
        _prev_month (mkCalendarView t (datetime.mk y m d) sel) ≫= _next_month
          = Some (mkCalendarView t (datetime.mk y m 1) sel)).
Proof.
  intros Hm Hy. unfold datetime.MINYEAR, datetime.MAXYEAR in *. split; intros Hend.
  - unfold _next_month. cbn [current_date today selected_date datetime.year datetime.month].
    destruct (Z.gtb_spec (m + 1) 12) as [Hgt|Hle].
    + assert (m = 12) as -> by lia. assert (y ≠ 9999) by congruence.
      rewrite first_of_month, decide_True by (unfold datetime.MINYEAR, datetime.MAXYEAR; lia).
      cbn [mbind option_bind]. unfold _prev_month.
      cbn [current_date today selected_date datetime.year datetime.month].
      change (1 - 1 <? 1) with true. cbn iota.
      rewrite first_of_month, decide_True by (unfold datetime.MINYEAR, datetime.MAXYEAR; lia).
      cbn [mbind option_bind]. do 3 f_equal. lia.
    + rewrite first_of_month, decide_True by (unfold datetime.MINYEAR, datetime.MAXYEAR; lia).
      cbn [mbind option_bind]. unfold _prev_month.
      cbn [current_date today selected_date datetime.year datetime.month].
      destruct (Z.ltb_spec (m + 1 - 1) 1); [lia|].
      rewrite first_of_month, decide_True by (unfold datetime.MINYEAR, datetime.MAXYEAR; lia).
      cbn [mbind option_bind]. do 3 f_equal. lia.
  - unfold _prev_month. cbn [current_date today selected_date datetime.year datetime.month].
    destruct (Z.ltb_spec (m - 1) 1) as [Hlt|Hge].
    + assert (m = 1) as -> by lia. assert (y ≠ 1) by congruence.
      rewrite first_of_month, decide_True by (unfold datetime.MINYEAR, datetime.MAXYEAR; lia).
      cbn [mbind option_bind]. unfold _next_month.
      cbn [current_date today selected_date datetime.year datetime.month].
      change (12 + 1 >? 12) with true. cbn iota.
      rewrite first_of_month, decide_True by (unfold datetime.MINYEAR, datetime.MAXYEAR; lia).
      cbn [mbind option_bind]. do 3 f_equal. lia.
    + rewrite first_of_month, decide_True by (unfold datetime.MINYEAR, datetime.MAXYEAR; lia).
      cbn [mbind option_bind]. unfold _next_month.
      cbn [current_date today selected_date datetime.year datetime.month].
      destruct (Z.gtb_spec (m - 1 + 1) 12); [lia|].
      rewrite first_of_month, decide_True by (unfold datetime.MINYEAR, datetime.MAXYEAR; lia).
      cbn [mbind option_bind]. do 3 f_equal. lia.
Qed.

Lemma month_navigation_round_trip_witness :
  _next_month view_of_january_2025 ≫= _prev_month
    = Some (mkCalendarView (datetime.mk 2025 1 15) (datetime.mk 2025 1 1)
              (Some (datetime.mk 2025 1 10)))
  /\ _prev_month view_of_january_2025 ≫= _next_month
       = Some (mkCalendarView (datetime.mk 2025 1 15) (datetime.mk 2025 1 1)
                 (Some (datetime.mk 2025 1 10))).
Proof.
  destruct (month_navigation_round_trip (datetime.mk 2025 1 15) 2025 1 15
              (Some (datetime.mk 2025 1 10))) as [Hnext Hprev]; [by_compute..|].
  split; [apply Hnext|apply Hprev]; by_compute.
Defined.

(** ** The statistics *)

Lemma fold_left_add_from (l : list Z) (a : Z) :
  fold_left Z.add l a = a + fold_left Z.add l 0.
Proof.
  revert a. induction l as [|x l IH]; intros a; cbn [fold_left]; [lia|].
  rewrite (IH (a + x)), (IH (0 + x)). lia.
Qed.

Lemma total_duration_snoc (acts : list Activity) (a : Activity) :
  total_duration (acts ++ [a]) = total_duration acts + act_duration a.
Proof.
  unfold total_duration. rewrite fmap_app, fold_left_app. done.
Qed.

Lemma stats_add_keys (c d : Z) (stats : list (Z * CatStat)) :
  (stats_add c d stats).*1 = if decide (c ∈ stats.*1) then stats.*1 else stats.*1 ++ [c].
Proof.
  induction stats as [|[j st] stats IH]; [done|].
  cbn [stats_add].
  destruct (decide (j = c)) as [->|Hne]; rewrite !fmap_cons; cbn [fst].
  - rewrite decide_True; [done|left].
  - rewrite IH. destruct (decide (c ∈ stats.*1)) as [Hin|Hnot].
    + rewrite decide_True; [done|by right].
    + rewrite decide_False; [done|].
      apply not_elem_of_cons. split; [congruence|done].
Qed.

Lemma stats_add_sums (c d : Z) (stats : list (Z * CatStat)) :
  fold_left Z.add ((fun p => stat_count p.2) <$> stats_add c d stats) 0
    = fold_left Z.add ((fun p => stat_count p.2) <$> stats) 0 + 1
  /\ fold_left Z.add ((fun p => stat_duration p.2) <$> stats_add c d stats) 0
     = fold_left Z.add ((fun p => stat_duration p.2) <$> stats) 0 + d.
Proof.
  induction stats as [|[j st] stats [IHc IHd]]; [done|].
  cbn [stats_add]. destruct (decide (j = c)) as [->|Hne]; rewrite !fmap_cons;
    cbn [fold_left snd stat_count stat_duration];
    rewrite (fold_left_add_from _ (0 + _)), (fold_left_add_from _ (0 + _)),
      (fold_left_add_from _ (0 + _)), (fold_left_add_from _ (0 + _)).
  - lia.
  - rewrite IHc, IHd. lia.
Qed.

(** Membership in the dictionary after one round of the loop. *)
Lemma stats_add_elem (c d : Z) (stats : list (Z * CatStat)) (k : Z) (st : CatStat) :
  NoDup stats.*1 ->
  (k, st) ∈ stats_add c d stats <->
  (k ≠ c /\ (k, st) ∈ stats)
  \/ (k = c /\ exists st0, (c, st0) ∈ stats
                          /\ st = mkCatStat (stat_count st0 + 1) (stat_duration st0 + d))
  \/ (k = c /\ (c ∉ stats.*1) /\ st = mkCatStat (0 + 1) (0 + d)).
Proof.
  induction stats as [|[j st1] stats IH]; intros Hnd.
  - cbn [stats_add]. rewrite list_elem_of_singleton. split.
    + intros [= -> ->]. right. right. split_and!; [done|apply not_elem_of_nil|done].
    + intros [[_ H]|[(_ & st0 & H & _)|(-> & _ & ->)]]; [|by apply elem_of_nil in H|done].
      by apply elem_of_nil in H.
  - rewrite fmap_cons in Hnd. apply NoDup_cons in Hnd as [Hj Hnd]. cbn [fst] in Hj.
    specialize (IH Hnd). cbn [stats_add].
    destruct (decide (j = c)) as [->|Hne].
    + rewrite !elem_of_cons. split.
      * intros [[= -> ->]|Hin].
        -- right. left. split; [done|]. exists st1. split; [left|done].
        -- left. split; [|by right]. intros ->. apply Hj.
           apply list_elem_of_fmap. by exists (c, st).
      * intros [[Hk [[= ? ?]|Hin]]|[(-> & st0 & Hin & ->)|(-> & Hnot & _)]].
        -- congruence.
        -- by right.
        -- apply elem_of_cons in Hin as [[= ->]|Hin]; [by left|].
           exfalso. apply Hj. apply list_elem_of_fmap. by exists (c, st0).
        -- exfalso. apply Hnot. rewrite fmap_cons. left.
    + rewrite !elem_of_cons, IH. rewrite fmap_cons, not_elem_of_cons. cbn [fst].
      split.
      * intros [[= -> ->]|[[Hk Hin]|[(-> & st0 & Hin & ->)|(-> & Hnot & ->)]]].
        -- left. split; [congruence|by left].
        -- left. split; [done|by right].
        -- right. left. split; [done|]. exists st0. split; [by right|done].
        -- right. right. split_and!; [done|congruence|done|done].
      * intros [[Hk [[= -> ->]|Hin]]|[(-> & st0 & Hin & ->)|(-> & [_ Hnot] & ->)]].
        -- by left.
        -- right. left. by split.
        -- apply elem_of_cons in Hin as [[= ? ?]|Hin]; [congruence|].
           right. right. left. split; [done|]. by exists st0.
        -- right. right. right. by split_and!.
Qed.

Lemma count_in_snoc (k : Z) (acts : list Activity) (a : Activity) :
  count_in k (acts ++ [a])
    = count_in k acts + (if decide (act_category_id a = k) then 1 else 0)
  /\ duration_in k (acts ++ [a])
     = duration_in k acts + (if decide (act_category_id a = k) then act_duration a else 0).
Proof.
  unfold count_in, duration_in. rewrite filter_app.
  destruct (decide (act_category_id a = k)) as [Heq|Hne].
  - rewrite (filter_cons_True _ a) by done. rewrite filter_nil.
    rewrite total_duration_snoc, length_app. cbn [length]. lia.
  - rewrite (filter_cons_False _ a) by done. rewrite filter_nil, app_nil_r. lia.
Qed.

Lemma count_in_absent (k : Z) (acts : list Activity) :
  k ∉ act_category_id <$> acts -> count_in k acts = 0 /\ duration_in k acts = 0.
Proof.
  intros Hk. unfold count_in, duration_in.
  assert (filter (fun a => act_category_id a = k) acts = []) as ->; [|done].
  induction acts as [|a acts IH]; [done|].
  rewrite fmap_cons in Hk. apply not_elem_of_cons in Hk as [Hne Hk].
  rewrite filter_cons_False by congruence. by apply IH.
Qed.

Lemma stats_of_step (seen : list Activity) (stats : list (Z * CatStat)) (a : Activity) :
  stats_of seen stats ->
  stats_of (seen ++ [a]) (stats_add (act_category_id a) (act_duration a) stats).
Proof.
  intros [Hnd Hstats]. split.
  - rewrite stats_add_keys. case_decide as Hin; [done|].
    apply NoDup_app. split_and!; [done| |apply NoDup_singleton].
    intros k Hk Hk'. apply list_elem_of_singleton in Hk' as ->. done.
  - intros k st. rewrite (stats_add_elem _ _ _ _ _ Hnd).
    destruct (count_in_snoc k seen a) as [-> ->].
    rewrite fmap_app, elem_of_app.
    change (act_category_id <$> [a]) with [act_category_id a].
    rewrite list_elem_of_singleton.
    split.
    + intros [[Hk Hin]|[(-> & st0 & Hin & ->)|(-> & Hnot & ->)]].
      * apply Hstats in Hin as [Hin ->]. split; [by left|].
        rewrite !decide_False by congruence. f_equal; lia.
      * apply Hstats in Hin as [Hin ->]. split; [by left|].
        rewrite !decide_True by done. done.
      * split; [by right|]. rewrite !decide_True by done.
        assert (act_category_id a ∉ act_category_id <$> seen) as Hnew.
        { intros Hin. apply Hnot. apply list_elem_of_fmap.
          exists (act_category_id a, mkCatStat (count_in (act_category_id a) seen)
                                       (duration_in (act_category_id a) seen)).
          split; [done|]. by apply Hstats. }
        by destruct (count_in_absent _ _ Hnew) as [-> ->].
    + intros [Hk ->]. destruct (decide (k = act_category_id a)) as [->|Hne].
      * rewrite !decide_True by done.
        destruct (decide (act_category_id a ∈ act_category_id <$> seen)) as [Hin|Hnot].
        -- right. left. split; [done|].
           exists (mkCatStat (count_in (act_category_id a) seen)
                     (duration_in (act_category_id a) seen)).
           split; [|done]. apply Hstats. by split.
        -- right. right. split; [done|].
           destruct (count_in_absent _ _ Hnot) as [-> ->]. split; [|done].
           intros Hin. apply Hnot. apply list_elem_of_fmap in Hin as ([k st] & Hk' & Hin).
           cbn in Hk'. subst k. by apply Hstats in Hin as [Hin _].
      * left. split; [done|]. rewrite !decide_False by congruence.
        destruct Hk as [Hk|Hk]; [|congruence].
        apply Hstats. split; [done|]. f_equal; lia.
Qed.

Lemma stats_of_fold (acts seen : list Activity) (stats : list (Z * CatStat)) :
  stats_of seen stats ->
  stats_of (seen ++ acts)
    (fold_left (fun stats act => stats_add (act_category_id act) (act_duration act) stats)
       acts stats).
Proof.
  revert seen stats. induction acts as [|a acts IH]; intros seen stats Hstats.
  - by rewrite app_nil_r.
  - cbn [fold_left]. rewrite (assoc_L _ seen [a] acts : seen ++ a :: acts = _).
    apply IH. by apply stats_of_step.
Qed.

(** X11: in the statistics, the categories of [cat_stats] are pairwise
    distinct and are exactly the category ids that occur among the
    activities, and every category carries the number of its activities and
    the sum of their durations. *)
Theorem cat_stats_groups_by_category (acts : list Activity) :
  NoDup (cat_stats acts).*1
  /\ forall k st,
       (k, st) ∈ cat_stats acts <->
       k ∈ act_category_id <$> acts
       /\ st = mkCatStat (count_in k acts) (duration_in k acts).
Proof.
  apply (stats_of_fold acts [] []). split; [apply NoDup_nil_2|].
  intros k st. split; [intros H; by apply elem_of_nil in H|].
  intros [H _]. by apply elem_of_nil in H.
Qed.

(** X12: the per-category figures add up to the totals shown above them:
    the counts of [cat_stats] sum to the number of activities and its
    durations sum to [total_duration]. *)
Theorem cat_stats_sums_to_totals (acts : list Activity) :
  fold_left Z.add ((fun p => stat_count p.2) <$> cat_stats acts) 0
    = total_activities acts
  /\ fold_left Z.add ((fun p => stat_duration p.2) <$> cat_stats acts) 0
     = total_duration acts.
Proof.
  cut (forall stats,
         fold_left Z.add ((fun p => stat_count p.2)
           <$> fold_left (fun stats act =>
                 stats_add (act_category_id act) (act_duration act) stats) acts stats) 0
           = fold_left Z.add ((fun p => stat_count p.2) <$> stats) 0
             + total_activities acts
         /\ fold_left Z.add ((fun p => stat_duration p.2)
              <$> fold_left (fun stats act =>
                    stats_add (act_category_id act) (act_duration act) stats) acts stats) 0
            = fold_left Z.add ((fun p => stat_duration p.2) <$> stats) 0
              + total_duration acts).
  { intros H. destruct (H []) as [Hc Hd]. unfold cat_stats. by rewrite Hc, Hd. }
  induction acts as [|a acts IH]; intros stats.
  - cbn [fold_left]. unfold total_activities, total_duration.
    rewrite fmap_nil. cbn [fold_left length]. lia.
  - cbn [fold_left].
    destruct (IH (stats_add (act_category_id a) (act_duration a) stats)) as [-> ->].
    destruct (stats_add_sums (act_category_id a) (act_duration a) stats) as [-> ->].
    unfold total_activities, total_duration. rewrite fmap_cons. cbn [fold_left length].
    rewrite (fold_left_add_from _ (0 + _)). lia.
Qed.

(** ** The validators *)

Section strip_front.

Variable p1 : ascii -> bool.
Variable p2 : ascii -> ascii -> bool.
Variable p3 : ascii -> ascii -> ascii -> bool.

Local Abbreviation strip := (strip_front p1 p2 p3).
Local Abbreviation starts := (starts_with p1 p2 p3).

(** One step of [strip_front], by cases on how the text starts. *)
Lemma strip_front_cases (l : list ascii) :
  (starts l = false /\ strip l = l)
  \/ (exists w r, l = w ++ r /\ (0 < length w)%nat /\ strip l = strip r).
Proof.
  destruct l as [|a r1]; [by left|]. cbn [strip_front starts_with].
  destruct (p1 a) eqn:H1.
  { right. exists [a], r1. split_and!; [done|cbn; lia|done]. }
  destruct r1 as [|b r2]; [by left|].
  destruct (p2 a b) eqn:H2.
  { right. exists [a; b], r2. split_and!; [done|cbn; lia|done]. }
  destruct r2 as [|c r3]; [by left|].
  destruct (p3 a b c) eqn:H3.
  { right. exists [a; b; c], r3. split_and!; [done|cbn; lia|done]. }
  by left.
Qed.

(** What is left starts with no such character, is an end of the text, and
    is left as it is by a second pass. *)
Lemma strip_front_spec (l : list ascii) :
  starts (strip l) = false /\ strip l `suffix_of` l /\ strip (strip l) = strip l.
Proof.
  remember (length l) as n eqn:Hn. revert l Hn.
  induction (lt_wf n) as [n _ IH]. intros l ->.
  destruct (strip_front_cases l) as [[Hs Hl]|(w & r & -> & Hw & Hl)].
  - rewrite !Hl. split_and!; [done|done|done].
  - rewrite Hl.
    destruct (IH (length r)) with (l := r) as (Hs & Hsuf & Hid);
      [rewrite length_app; lia|done|].
    split_and!; [done| |done].
    etrans; [done|]. by apply suffix_app_r.
Qed.

Lemma strip_front_fixed (l : list ascii) : starts l = false -> strip l = l.
Proof.
  destruct l as [|a [|b [|c r]]]; cbn [strip_front starts_with]; try done.
  - by destruct (p1 a).
  - by destruct (p1 a), (p2 a b).
  - by destruct (p1 a), (p2 a b), (p3 a b c).
Qed.

Lemma starts_with_app (u v : list ascii) : starts u = true -> starts (u ++ v) = true.
Proof.
  destruct u as [|a [|b [|c r]]]; cbn [starts_with app]; try done.
  - rewrite !orb_false_r. intros ->. done.
  - rewrite !orb_false_r. intros H. apply orb_true_iff in H as [->| ->]; [done|].
    destruct v; by rewrite ?orb_true_r.
Qed.

End strip_front.

Lemma bytes_of_list (l : list ascii) : bytes (string_of_list_ascii l) = l.
Proof. apply list_ascii_of_string_of_list_ascii. Qed.

Lemma bytes_nil_inv (text : string) : bytes text = [] -> text = EmptyString.
Proof. by destruct text. Qed.

Lemma lstrip_spec (l : list ascii) :
  starts_with_space (lstrip l) = false /\ lstrip l `suffix_of` l.
Proof.
  destruct (strip_front_spec is_space1 is_space2 is_space3 l) as (Hs & Hsuf & _).
  by split.
Qed.

Lemma rstrip_spec (l : list ascii) :
  ends_with_space (rstrip l) = false /\ rstrip l `prefix_of` l
  /\ rstrip (rstrip l) = rstrip l.
Proof.
  unfold ends_with_space, rstrip.
  destruct (strip_front_spec is_space1 (fun b a => is_space2 a b)
              (fun c b a => is_space3 a b c) (reverse l)) as (Hs & [k Hk] & Hid).
  rewrite !reverse_involutive. split_and!; [done| |by rewrite Hid].
  exists (reverse k). apply (inj reverse). by rewrite reverse_app, !reverse_involutive.
Qed.

Lemma rstrip_keeps_front (l : list ascii) :
  starts_with_space l = false -> starts_with_space (rstrip l) = false.
Proof.
  intros Hl. destruct (rstrip_spec l) as (_ & [k Hk] & _).
  destruct (starts_with_space (rstrip l)) eqn:Hs; [|done].
  apply (starts_with_app _ _ _ _ k) in Hs. rewrite <- Hk in Hs.
  unfold starts_with_space in Hl. congruence.
Qed.

(** Both ends of a stripped text are clean, and stripping it again changes
    nothing. *)
Lemma strip_both_spec (l : list ascii) :
  starts_with_space (rstrip (lstrip l)) = false
  /\ ends_with_space (rstrip (lstrip l)) = false
  /\ rstrip (lstrip (rstrip (lstrip l))) = rstrip (lstrip l)
  /\ exists pre post, l = pre ++ rstrip (lstrip l) ++ post.
Proof.
  destruct (lstrip_spec l) as [Hfront [pre Hpre]].
  destruct (rstrip_spec (lstrip l)) as (Hback & [post Hpost] & Hid).
  pose proof (rstrip_keeps_front _ Hfront) as Hfront'.
  split_and!; [done|done| |].
  - unfold lstrip at 1. rewrite strip_front_fixed by done. done.
  - exists pre, post. by rewrite <- Hpost.
Qed.

Lemma filter_angle_fixed (l r : list ascii) :
  l `sublist_of` filter (fun a => code a ≠ 60 /\ code a ≠ 62) r ->
  filter (fun a => code a ≠ 60 /\ code a ≠ 62) l = l.
Proof.
  intros Hsub. induction l as [|a l IH]; [done|].
  assert (a ∈ filter (fun a => code a ≠ 60 /\ code a ≠ 62) r) as Ha.
  { eapply elem_of_sublist; [left|done]. }
  apply list_elem_of_filter in Ha as [Ha _].
  rewrite filter_cons_True by done. f_equal. apply IH.
  etrans; [|done]. apply sublist_cons. done.
Qed.

(** [py_strip], the [strip()] of the notes and of [sanitize_input]: the
    result is a stretch of the text between a removed beginning and a
    removed end, it neither starts nor ends with a whitespace character, and
    stripping it again gives it back. *)
Lemma py_strip_spec (text : string) :
  (exists pre post, bytes text = pre ++ bytes (py_strip text) ++ post)
  /\ starts_with_space (bytes (py_strip text)) = false
  /\ ends_with_space (bytes (py_strip text)) = false
  /\ py_strip (py_strip text) = py_strip text.
Proof.
  unfold py_strip, bytes. rewrite !list_ascii_of_string_of_list_ascii.
  destruct (strip_both_spec (list_ascii_of_string text)) as (Hf & Hb & Hid & Hmid).
  split_and!; [done|done|done|]. by rewrite Hid.
Qed.

(** X13: [sanitize_input] returns a text without ["<"] and [">"], made of
    characters of its argument in their order, with no whitespace character
    at either end; sanitizing a sanitized text changes nothing. *)
Theorem sanitize_input_spec (text : string) :
  Forall (fun a => code a ≠ 60 /\ code a ≠ 62) (bytes (sanitize_input text))
  /\ bytes (sanitize_input text) `sublist_of` bytes text
  /\ starts_with_space (bytes (sanitize_input text)) = false
  /\ ends_with_space (bytes (sanitize_input text)) = false
  /\ sanitize_input (sanitize_input text) = sanitize_input text.
Proof.
  unfold sanitize_input at 1 2 3 4. destruct (decide (text = EmptyString)) as [->|Hne].
  { split_and!; try done. }
  unfold py_strip, re_sub_angle, bytes. rewrite !list_ascii_of_string_of_list_ascii.
  set (r := filter (fun a => code a ≠ 60 /\ code a ≠ 62) (list_ascii_of_string text)).
  destruct (strip_both_spec r) as (Hf & Hb & Hid & pre & post & Hmid).
  assert (rstrip (lstrip r) `sublist_of` r) as Hsub.
  { rewrite Hmid at 2. apply sublist_inserts_l, sublist_inserts_r. done. }
  split_and!; [| |done|done|].
  - apply Forall_forall. intros a Ha.
    pose proof (elem_of_sublist _ _ _ Ha Hsub) as Hr.
    by apply list_elem_of_filter in Hr as [? _].
  - etrans; [done|]. apply sublist_filter.
  - assert (sanitize_input text = string_of_list_ascii (rstrip (lstrip r))) as ->.
    { unfold sanitize_input, py_strip, re_sub_angle. rewrite decide_False by done.
      by rewrite list_ascii_of_string_of_list_ascii. }
    unfold sanitize_input. case_decide as Heq; [by rewrite Heq|].
    unfold py_strip, re_sub_angle. rewrite !list_ascii_of_string_of_list_ascii.
    rewrite (filter_angle_fixed _ (list_ascii_of_string text)) by exact Hsub.
    by rewrite Hid.
Qed.

Lemma code_inj (a b : ascii) : code a = code b -> a = b.
Proof.
  unfold code. intros H. apply N2Z.inj in H.
  rewrite <- (ascii_N_embedding a), <- (ascii_N_embedding b). by rewrite H.
Qed.

Lemma hex_digits_spec (n : nat) (l r : list ascii) :
  hex_digits n l = Some r <->
  exists h, l = h ++ r /\ length h = n /\ Forall (fun a => is_hex a) h.
Proof.
  revert l. induction n as [|n IH]; intros l; cbn [hex_digits].
  - split.
    + intros [= ->]. by exists [].
    + intros (h & -> & Hlen & _). by destruct h.
  - destruct l as [|a l].
    + split; [done|]. intros (h & Hl & Hlen & _). by destruct h.
    + destruct (is_hex a) eqn:Ha.
      * rewrite IH. split.
        -- intros (h & -> & Hlen & Hh). exists (a :: h). split_and!; [done|by cbn; f_equal|].
           constructor; [by rewrite Ha|done].
        -- intros (h & Hl & Hlen & Hh). destruct h as [|b h]; [done|].
           injection Hl as -> ->. injection Hlen as Hlen.
           apply Forall_cons in Hh as [_ Hh]. by exists h.
      * split; [done|]. intros (h & Hl & Hlen & Hh). destruct h as [|b h]; [done|].
        injection Hl as -> ->. apply Forall_cons in Hh as [Hb _].
        by rewrite Ha in Hb.
Qed.

Lemma at_dollar_spec (l : list ascii) :
  at_dollar l = true <-> l = [] \/ l = ["010"%char].
Proof.
  destruct l as [|a [|b l]]; cbn [at_dollar].
  - split; [by left|done].
  - rewrite Z.eqb_eq. split.
    + intros Ha. right. f_equal. by apply code_inj.
    + intros [?| [= ->]]; done.
  - split; [done|]. by intros [?|?].
Qed.

(** X14: [validate_color_hex] accepts exactly the texts made of ["#"] and
    three or six hexadecimal digits, and the same texts followed by one
    newline. *)
Theorem validate_color_hex_spec (color : string) :
  validate_color_hex color = true <->
  exists h tail,
    bytes color = "#"%char :: h ++ tail
    /\ Forall (fun a => is_hex a) h
    /\ (length h = 3%nat \/ length h = 6%nat)
    /\ (tail = [] \/ tail = ["010"%char]).
Proof.
  unfold validate_color_hex, bytes. destruct (list_ascii_of_string color) as [|a rest].
  { split; [done|]. by intros (h & tail & ? & _). }
  rewrite andb_true_iff, orb_true_iff, Z.eqb_eq. split.
  - intros [Ha Hrest]. apply (code_inj a "#"%char) in Ha as ->.
    destruct Hrest as [Hrest|Hrest].
    + destruct (hex_digits 6 rest) as [r|] eqn:Hr; [|done]. cbn in Hrest.
      apply hex_digits_spec in Hr as (h & -> & Hlen & Hh).
      exists h, r. split_and!; [done|done|by right|by apply at_dollar_spec].
    + destruct (hex_digits 3 rest) as [r|] eqn:Hr; [|done]. cbn in Hrest.
      apply hex_digits_spec in Hr as (h & -> & Hlen & Hh).
      exists h, r. split_and!; [done|done|by left|by apply at_dollar_spec].
  - intros (h & tail & [= -> ->] & Hh & Hlen & Htail). split; [done|].
    apply at_dollar_spec in Htail. destruct Hlen as [Hlen|Hlen].
    + right. assert (hex_digits 3 (h ++ tail) = Some tail) as ->; [|done].
      apply hex_digits_spec. by exists h.
    + left. assert (hex_digits 6 (h ++ tail) = Some tail) as ->; [|done].
      apply hex_digits_spec. by exists h.
Qed.

(** ** The handlers of the main window *)

Lemma category_id_of_name_Some (cats : list Category) (name : string) (k : Z) :
  category_id_of_name cats name = Some k ->
  exists c, c ∈ cats /\ cat_name c = name /\ cat_id c = k.
Proof.
  induction cats as [|c cats IH]; cbn [category_id_of_name]; [done|].
  case_decide as Hc.
  - intros [= <-]. exists c. split_and!; [left|done|done].
  - intros H. destruct (IH H) as (c' & Hin & Hname & Hid).
    exists c'. split_and!; [by right|done|done].
Qed.

Lemma checked_form_Some (cats : list Category) (title_var : string)
    (duration_int : option Z) (category_var title : string) (duration cat : Z) :
  checked_form cats title_var duration_int category_var = Some (title, duration, cat) ->
  title = sanitize_input title_var /\ title ≠ EmptyString
  /\ duration_int = Some duration /\ 0 < duration
  /\ exists c, c ∈ cats /\ cat_name c = category_var /\ cat_id c = cat.
Proof.
  unfold checked_form. case_decide as Ht; [done|].
  destruct duration_int as [d|]; [|done].
  destruct (Z.leb_spec d 0) as [Hd|Hd]; [done|].
  destruct (category_id_of_name cats category_var) as [k|] eqn:Hk; [|done].
  intros [= <- <- <-]. split_and!; [done|done|done|done|].
  by apply category_id_of_name_Some.
Qed.

Lemma first_with_Some (id : Z) (acts : list Activity) (a : Activity) :
  first_with id acts = Some a ->
  exists before rest,
    acts = before ++ a :: rest /\ act_id a = id /\ (id ∉ act_id <$> before).
Proof.
  induction acts as [|b acts IH]; cbn [first_with]; [done|].
  case_decide as Hb.
  - intros [= ->]. exists [], acts. split_and!; [done|done|].
    rewrite fmap_nil. apply not_elem_of_nil.
  - intros H. destruct (IH H) as (before & rest & -> & Ha & Hbefore).
    exists (b :: before), rest. split_and!; [done|done|].
    rewrite fmap_cons. apply not_elem_of_cons. split; [congruence|done].
Qed.

Lemma category_id_of_name_first (before rest : list Category) (c : Category)
    (name : string) :
  Forall (fun c' => cat_name c' ≠ name) before -> cat_name c = name ->
  category_id_of_name (before ++ c :: rest) name = Some (cat_id c).
Proof.
  intros Hbefore Hc. induction Hbefore as [|b before Hb Hbefore IH];
    cbn [app category_id_of_name].
  - by rewrite decide_True.
  - by rewrite decide_False.
Qed.

Lemma category_id_of_name_None (cats : list Category) (name : string) :
  Forall (fun c => cat_name c ≠ name) cats -> category_id_of_name cats name = None.
Proof.
  induction 1 as [|c cats Hc Hcats IH]; cbn [category_id_of_name]; [done|].
  by rewrite decide_False.
Qed.

(** Either no category has the name, or there is a first one that has it. *)
Lemma category_named (cats : list Category) (name : string) :
  Forall (fun c => cat_name c ≠ name) cats
  \/ exists before c rest,
       cats = before ++ c :: rest /\ cat_name c = name
       /\ Forall (fun c' => cat_name c' ≠ name) before.
Proof.
  induction cats as [|b cats IH]; [by left|].
  destruct (decide (cat_name b = name)) as [Hb|Hb].
  - right. by exists [], b, cats.
  - destruct IH as [Hnone|(before & c & rest & -> & Hc & Hbefore)].
    + left. by constructor.
    + right. exists (b :: before), c, rest. split_and!; [done|done|by constructor].
Qed.

Lemma first_with_first (id : Z) (before rest : list Activity) (a : Activity) :
  act_id a = id -> id ∉ act_id <$> before ->
  first_with id (before ++ a :: rest) = Some a.
Proof.
  intros Ha. induction before as [|b before IH]; cbn [app first_with]; intros Hbefore.
  - by rewrite decide_True.
  - rewrite fmap_cons in Hbefore. apply not_elem_of_cons in Hbefore as [Hb Hbefore].
    rewrite decide_False by congruence. by apply IH.
Qed.

Lemma first_with_None (id : Z) (acts : list Activity) :
  id ∉ act_id <$> acts -> first_with id acts = None.
Proof.
  induction acts as [|b acts IH]; cbn [first_with]; [done|]. intros Hid.
  rewrite fmap_cons in Hid. apply not_elem_of_cons in Hid as [Hb Hid].
  rewrite decide_False by congruence. by apply IH.
Qed.

(** The form is accepted exactly when the sanitized title is not empty,
    the duration is a number above 0 and some category has the name; the id
    is that of the first category with the name. *)
Lemma checked_form_valid (before rest : list Category) (c : Category)
    (title_var : string) (duration : Z) :
  sanitize_input title_var ≠ EmptyString -> 0 < duration ->
  Forall (fun c' => cat_name c' ≠ cat_name c) before ->
  checked_form (before ++ c :: rest) title_var (Some duration) (cat_name c)
    = Some (sanitize_input title_var, duration, cat_id c).
Proof.
  intros Ht Hd Hbefore. unfold checked_form. rewrite decide_False by done.
  destruct (Z.leb_spec duration 0); [lia|].
  by rewrite category_id_of_name_first.
Qed.

Lemma checked_form_invalid (cats : list Category) (title_var : string)
    (duration_int : option Z) (category_var : string) :
  sanitize_input title_var = EmptyString
  \/ (forall d, duration_int = Some d -> d <= 0)
  \/ Forall (fun c => cat_name c ≠ category_var) cats ->
  checked_form cats title_var duration_int category_var = None.
Proof.
  intros Hbad. unfold checked_form. case_decide as Ht; [done|].
  destruct duration_int as [d|]; [|done].
  destruct (Z.leb_spec d 0) as [Hd|Hd]; [done|].
  destruct Hbad as [?|[Hdur|Hcat]]; [done|specialize (Hdur d eq_refl); lia|].
  by rewrite category_id_of_name_None.
Qed.

(** X15: [_add_activity] goes through exactly for a valid form: with a date
    selected, a title that is not empty once sanitized, a duration above 0
    and the name of a stored category, it appends one activity (a fresh id,
    the sanitized title, the id of the first category with that name, the
    selected date as a text, which for the years from 1000 on is the
    year-month-day text, the duration and the stripped notes); with no date
    selected, an empty sanitized title, no duration above 0 or a name that
    no category has, it shows a warning and leaves the file as it was. One
    of the two always holds. *)
Theorem add_activity_dialog_spec (file : Document) (selected_date : option datetime.t)
    (title_var : string) (duration_int : option Z) (category_var notes_text : string) :
  (forall date duration before c rest,
     selected_date = Some date -> duration_int = Some duration -> 0 < duration ->
     sanitize_input title_var ≠ EmptyString ->
     categories file = before ++ c :: rest -> cat_name c = category_var ->
     Forall (fun c' => cat_name c' ≠ category_var) before ->
     exists date_str,
       _add_activity selected_date title_var duration_int category_var notes_text file
       = (Completed,
          {| categories := categories file;
             activities :=
               activities file
               ++ [ mkActivity (new_id (act_id <$> activities file))
                      (sanitize_input title_var) (cat_id c) date_str duration
                      (py_strip notes_text) ] |})
       /\ (new_id (act_id <$> activities file) ∉ act_id <$> activities file)
       /\ (1000 <= datetime.year date <= 9999 ->
           date_str = datetime.strftime_Ymd date))
  /\ (selected_date = None
      \/ sanitize_input title_var = EmptyString
      \/ (forall d, duration_int = Some d -> d <= 0)
      \/ Forall (fun c => cat_name c ≠ category_var) (categories file) ->
      _add_activity selected_date title_var duration_int category_var notes_text file
      = (Warned, file))
  /\ ((exists date duration before c rest,
         selected_date = Some date /\ duration_int = Some duration /\ 0 < duration
         /\ sanitize_input title_var ≠ EmptyString
         /\ categories file = before ++ c :: rest /\ cat_name c = category_var
         /\ Forall (fun c' => cat_name c' ≠ category_var) before)
      \/ (selected_date = None
          \/ sanitize_input title_var = EmptyString
          \/ (forall d, duration_int = Some d -> d <= 0)
          \/ Forall (fun c => cat_name c ≠ category_var) (categories file))).
Proof.
  split_and!.
  - intros date duration before c rest -> -> Hd Ht Hcats <- Hbefore.
    exists (datetime.strftime_Ymd date). split_and!; [|apply new_id_fresh|done].
    pose proof (checked_form_valid before rest c title_var duration Ht Hd Hbefore)
      as Hform.
    rewrite <- Hcats in Hform. unfold _add_activity. store_run. by rewrite Hform.
  - intros Hbad. unfold _add_activity. destruct selected_date as [date|]; [|done].
    store_run. rewrite checked_form_invalid; [done|].
    destruct Hbad as [?|Hbad]; [done|exact Hbad].
  - destruct selected_date as [date|]; [|right; by left].
    destruct (decide (sanitize_input title_var = EmptyString)) as [Ht|Ht];
      [right; right; by left|].
    destruct duration_int as [d|]; [|right; do 2 right; left; by intros d [=]].
    destruct (decide (d <= 0)) as [Hd|Hd];
      [right; do 2 right; left; by intros ? [= <-]|].
    destruct (category_named (categories file) category_var)
      as [Hnone|(before & c & rest & Hcats & Hc & Hbefore)];
      [by do 4 right|].
    left. exists date, d, before, c, rest. split_and!; try done. lia.
Qed.

Lemma add_activity_dialog_spec_witness :
  (exists date_str,
     _add_activity (Some (datetime.mk 2025 2 1)) " <b>Piano</b> " (Some 40)
       "Lecture" "gammes " sample_document
     = (Completed,
        {| categories := categories sample_document;
           activities :=
             activities sample_document
             ++ [ mkActivity 6 "bPiano/b" 2 date_str 40 "gammes" ] |})
     /\ (6 ∉ act_id <$> activities sample_document)
     /\ (1000 <= 2025 <= 9999 -> date_str = "2025-02-01"%string))
  /\ _add_activity (Some (datetime.mk 2025 2 1)) "Piano" (Some 0) "Lecture" ""
       sample_document = (Warned, sample_document).
Proof.
  split.
  - apply (proj1 (add_activity_dialog_spec sample_document
                    (Some (datetime.mk 2025 2 1)) " <b>Piano</b> " (Some 40)
                    "Lecture" "gammes ")
             (datetime.mk 2025 2 1) 40
             [mkCategory 1 "Sport" "#FF5733"] (mkCategory 2 "Lecture" "#33A8FF")
             [mkCategory 3 "Méditation" "#B033FF"; mkCategory 4 "Travail" "#33FF57"]);
      try reflexivity; try lia; by_compute.
  - apply (proj1 (proj2 (add_activity_dialog_spec sample_document
                           (Some (datetime.mk 2025 2 1)) "Piano" (Some 0)
                           "Lecture" ""))).
    right. right. left. intros d [= <-]. lia.
Defined.

(** X16: [_edit_activity] goes through exactly for a selected id that some
    activity has and a valid form, and then rewrites the first activity with
    that id, the one whose data the dialog showed: sanitized title, id of
    the first category with the chosen name, duration, stripped notes; its
    id and date, the other activities and the categories are kept. With no
    row selected, an id that no activity has, an empty sanitized title, no
    duration above 0 or a name that no category has, it shows a message and
    leaves the file as it was. One of the two always holds. *)
Theorem edit_activity_dialog_spec (file : Document) (selected : option Z)
    (title_var : string) (duration_int : option Z) (category_var notes_text : string) :
  (forall id before a rest duration cbefore c crest,
     selected = Some id ->
     activities file = before ++ a :: rest -> act_id a = id ->
     id ∉ act_id <$> before ->
     duration_int = Some duration -> 0 < duration ->
     sanitize_input title_var ≠ EmptyString ->
     categories file = cbefore ++ c :: crest -> cat_name c = category_var ->
     Forall (fun c' => cat_name c' ≠ category_var) cbefore ->
     first_with id (activities file) = Some a
     /\ _edit_activity selected title_var duration_int category_var notes_text file
        = (Completed,
           {| categories := categories file;
              activities :=
                before
                ++ mkActivity id (sanitize_input title_var) (cat_id c) (act_date a)
                     duration (py_strip notes_text)
                :: rest |}))
  /\ ((forall id, selected = Some id -> id ∉ act_id <$> activities file)
      \/ sanitize_input title_var = EmptyString
      \/ (forall d, duration_int = Some d -> d <= 0)
      \/ Forall (fun c => cat_name c ≠ category_var) (categories file) ->
      _edit_activity selected title_var duration_int category_var notes_text file
      = (Warned, file))
  /\ ((exists id before a rest duration cbefore c crest,
         selected = Some id
         /\ activities file = before ++ a :: rest /\ act_id a = id
         /\ (id ∉ act_id <$> before)
         /\ duration_int = Some duration /\ 0 < duration
         /\ sanitize_input title_var ≠ EmptyString
         /\ categories file = cbefore ++ c :: crest /\ cat_name c = category_var
         /\ Forall (fun c' => cat_name c' ≠ category_var) cbefore)
      \/ ((forall id, selected = Some id -> id ∉ act_id <$> activities file)
          \/ sanitize_input title_var = EmptyString
          \/ (forall d, duration_int = Some d -> d <= 0)
          \/ Forall (fun c => cat_name c ≠ category_var) (categories file))).
Proof.
  split_and!.
  - intros id before a rest duration cbefore c crest -> Hacts Ha Hbefore -> Hd Ht
      Hcats <- Hcbefore.
    assert (first_with id (activities file) = Some a) as Hfound.
    { rewrite Hacts. by apply first_with_first. }
    split; [done|].
    pose proof (checked_form_valid cbefore crest c title_var duration Ht Hd Hcbefore)
      as Hform.
    rewrite <- Hcats in Hform.
    unfold _edit_activity. store_run. cbn [truthy]. rewrite Hfound, Hform.
    rewrite Hacts, update_first_split by done. by rewrite Ha.
  - intros Hbad. unfold _edit_activity. destruct selected as [id|]; [|done].
    store_run. cbn [truthy].
    destruct (first_with id (activities file)) as [a|] eqn:Hfound; [|done].
    rewrite checked_form_invalid; [done|].
    destruct Hbad as [Hid|Hbad]; [|exact Hbad].
    rewrite first_with_None in Hfound by (by apply Hid). done.
  - destruct selected as [id|]; [|right; left; by intros id [=]].
    destruct (decide (id ∈ act_id <$> activities file)) as [Hid|Hid];
      [|right; left; by intros ? [= <-]].
    destruct (decide (sanitize_input title_var = EmptyString)) as [Ht|Ht];
      [right; right; by left|].
    destruct duration_int as [d|]; [|right; do 2 right; left; by intros d [=]].
    destruct (decide (d <= 0)) as [Hd|Hd];
      [right; do 2 right; left; by intros ? [= <-]|].
    destruct (category_named (categories file) category_var)
      as [Hnone|(cbefore & c & crest & Hcats & Hc & Hcbefore)];
      [by do 4 right|].
    destruct (first_with_id _ _ Hid) as (before & a & rest & Hacts & Ha & Hbefore).
    left. exists id, before, a, rest, d, cbefore, c, crest.
    split_and!; try done. lia.
Qed.

Lemma edit_activity_dialog_spec_witness :
  (first_with 3 (activities sample_document)
     = Some (mkActivity 3 "Yoga" 3 "2025-01-15" 20 "")
   /\ _edit_activity (Some 3) "Pilates" (Some 25) "Sport" " salle B"
        sample_document
      = (Completed,
         {| categories := categories sample_document;
            activities :=
              [ mkActivity 1 "Footing" 1 "2025-01-05" 30 "";
                mkActivity 2 "Roman" 2 "2025-01-10" 45 "chapitre 3" ]
              ++ mkActivity 3 "Pilates" 1 "2025-01-15" 25 "salle B"
              :: [ mkActivity 4 "Rapport" 4 "2025-01-20" 90 "";
                   mkActivity 5 "Natation" 1 "2025-01-25" 60 "" ] |}))
  /\ _edit_activity (Some 9) "Pilates" (Some 25) "Sport" "" sample_document
     = (Warned, sample_document).
Proof.
  split.
  - apply (proj1 (edit_activity_dialog_spec sample_document (Some 3) "Pilates"
                    (Some 25) "Sport" " salle B")
             3 [ mkActivity 1 "Footing" 1 "2025-01-05" 30 "";
                 mkActivity 2 "Roman" 2 "2025-01-10" 45 "chapitre 3" ]
             (mkActivity 3 "Yoga" 3 "2025-01-15" 20 "")
             [ mkActivity 4 "Rapport" 4 "2025-01-20" 90 "";
               mkActivity 5 "Natation" 1 "2025-01-25" 60 "" ]
             25 [] (mkCategory 1 "Sport" "#FF5733")
             [ mkCategory 2 "Lecture" "#33A8FF"; mkCategory 3 "Méditation" "#B033FF";
               mkCategory 4 "Travail" "#33FF57" ]);
      try reflexivity; try lia; by_compute.
  - apply (proj1 (proj2 (edit_activity_dialog_spec sample_document (Some 9) "Pilates"
                           (Some 25) "Sport" ""))).
    left. intros id [= <-]. by_compute.
Defined.

(** A property that every click keeps is kept by every run of clicks. *)
Lemma handle_all_keeps (I : Document -> Prop) :
  (forall file c, I file -> I (after (handle c) file)) ->
  forall cs file, I file -> I (after (handle_all cs) file).
Proof.
  intros Hstep cs. induction cs as [|c cs IH]; intros file Hfile; [done|].
  specialize (IH _ (Hstep file c Hfile)). revert IH.
  cbn [handle_all]. cbv [mbind mret Store_bind Store_ret snd after].
  destruct (handle c file) as [o file'].
  by destruct (handle_all cs file') as [rest file''].
Qed.

Lemma update_first_Forall (P : Activity -> Prop) id title cat dur notes
    (acts : list Activity) :
  (forall a, P a -> P (mkActivity (act_id a) title cat (act_date a) dur notes)) ->
  Forall P acts -> Forall P (update_first id title cat dur notes acts).
Proof.
  intros Hnew. induction 1 as [|a acts Ha Hacts IH]; cbn [update_first]; [done|].
  case_decide; constructor; auto.
Qed.

Lemma Forall_filter_keeps {A : Type} (P Q : A -> Prop) `{!forall x, Decision (Q x)}
    (l : list A) :
  Forall P l -> Forall P (filter Q l).
Proof.
  rewrite !Forall_forall. intros Hl x Hx.
  apply list_elem_of_filter in Hx as [_ Hx]. by apply Hl.
Qed.

(** A click changes the file in one of four ways. *)
Lemma handle_cases (file : Document) (c : click) :
  after (handle c) file = file
  \/ (exists title duration cat date notes k,
        title ≠ EmptyString /\ 0 < duration
        /\ cat ∈ cat_id <$> categories file
        /\ after (handle c) file
           = {| categories := categories file;
                activities :=
                  activities file ++ [mkActivity k title cat date duration notes] |})
  \/ (exists id title duration cat notes,
        title ≠ EmptyString /\ 0 < duration
        /\ cat ∈ cat_id <$> categories file
        /\ after (handle c) file
           = {| categories := categories file;
                activities :=
                  update_first id title cat duration notes (activities file) |})
  \/ (exists id,
        after (handle c) file
        = {| categories := categories file;
             activities := filter (fun a => act_id a ≠ id) (activities file) |})
  \/ (exists cat,
        filter (fun a => act_category_id a = cat) (activities file) = []
        /\ after (handle c) file
           = {| categories := filter (fun c => cat_id c ≠ cat) (categories file);
                activities := activities file |}).
Proof.
  destruct c as [sel tv dv cv nt|sel tv dv cv nt|sel ok|sel ok]; cbn [handle].
  - unfold _add_activity. destruct sel as [date|]; [|by left]. store_run.
    destruct (checked_form (categories file) tv dv cv)
      as [[[title duration] cat]|] eqn:Hform; [|by left].
    apply checked_form_Some in Hform as (-> & Ht & -> & Hd & c & Hc & Hname & <-).
    right. left. eexists _, _, _, _, _, _. split_and!; [done|done| |done].
    apply list_elem_of_fmap. by exists c.
  - unfold _edit_activity. destruct sel as [id|]; [|by left]. store_run. cbn [truthy].
    destruct (first_with id (activities file)) as [a|]; [|by left].
    destruct (checked_form (categories file) tv dv cv)
      as [[[title duration] cat]|] eqn:Hform; [|by left].
    apply checked_form_Some in Hform as (-> & Ht & -> & Hd & c & Hc & Hname & <-).
    right. right. left. eexists _, _, _, _, _. split_and!; [done|done| |done].
    apply list_elem_of_fmap. by exists c.
  - unfold _delete_activity. destruct sel as [id|]; [|by left].
    destruct ok; [|by left]. store_run. right. right. right. left. by exists id.
  - unfold delete_category_clicked. destruct sel as [cat|]; [|by left].
    store_run. cbn [truthy].
    destruct (filter (fun a => act_category_id a = cat) (activities file)) eqn:Hused;
      [|by left].
    destruct ok; [|by left]. do 4 right. by exists cat.
Qed.

(** X17: through the main window every activity keeps referring to a
    stored category: each click keeps that property of the file, since a
    saved activity gets the id of a listed category and a category that an
    activity uses is not deleted; so it holds after every run of clicks from
    the seeded document. The store's own [delete_category] does not keep it. *)
Theorem clicks_keep_references :
  (forall (file : Document) (c : click),
     references_ok file -> references_ok (after (handle c) file))
  /\ (forall cs : list click, references_ok (after (handle_all cs) seed_document))
  /\ references_ok sample_document
  /\ ~ references_ok (after (delete_category 1) sample_document).
Proof.
  assert (forall file c, references_ok file -> references_ok (after (handle c) file))
    as Hstep.
  { intros file c Hok. unfold references_ok in *.
    destruct (handle_cases file c)
      as [->|[(t & d & cat & date & n & k & _ & _ & Hcat & ->)
             |[(id & t & d & cat & n & _ & _ & Hcat & ->)
              |[(id & ->)|(cat & Hunused & ->)]]]]; cbn [categories activities].
    - done.
    - apply Forall_app. split; [done|]. by apply Forall_singleton.
    - by apply update_first_Forall.
    - by apply Forall_filter_keeps.
    - apply Forall_forall. intros a Ha.
      rewrite Forall_forall in Hok. specialize (Hok a Ha).
      apply list_elem_of_fmap in Hok as (c' & Hid & Hc').
      apply list_elem_of_fmap. exists c'. split; [done|].
      apply list_elem_of_filter. split; [|done].
      intros Heq. apply (filter_nil_not_elem_of _ _ a Hunused); [|done].
      cbn. congruence. }
  split_and!; [done| |by_compute|by_compute].
  intros cs. apply handle_all_keeps; [done|]. by_compute.
Qed.

Lemma clicks_keep_references_witness :
  references_ok sample_document
  /\ references_ok (after (handle (ClickDeleteCategory (Some 1) true)) sample_document)
  /\ references_ok
       (after (handle (ClickAddActivity (Some (datetime.mk 2025 2 1)) "Piano"
                         (Some 40) "Lecture" "")) sample_document).
Proof.
  assert (references_ok sample_document) as Hsample by by_compute.
  split_and!; [done|by apply (proj1 clicks_keep_references)
              |by apply (proj1 clicks_keep_references)].
Defined.

(** X18: through the main window every stored activity keeps a title that
    is not empty and a duration above 0: each click keeps that property of
    the file, and it holds after every run of clicks from the seeded
    document. *)
Theorem clicks_keep_entries_valid :
  (forall (file : Document) (c : click),
     entries_ok file -> entries_ok (after (handle c) file))
  /\ (forall cs : list click, entries_ok (after (handle_all cs) seed_document)).
Proof.
  assert (forall file c, entries_ok file -> entries_ok (after (handle c) file))
    as Hstep.
  { intros file c Hok. unfold entries_ok in *.
    destruct (handle_cases file c)
      as [->|[(t & d & cat & date & n & k & Ht & Hd & _ & ->)
             |[(id & t & d & cat & n & Ht & Hd & _ & ->)
              |[(id & ->)|(cat & _ & ->)]]]]; cbn [categories activities].
    - done.
    - apply Forall_app. split; [done|]. by apply Forall_singleton.
    - by apply update_first_Forall.
    - by apply Forall_filter_keeps.
    - done. }
  split; [done|].
  intros cs. apply handle_all_keeps; [done|]. by constructor.
Qed.

Lemma clicks_keep_entries_valid_witness :
  entries_ok sample_document
  /\ entries_ok
       (after (handle (ClickEditActivity (Some 2) "Roman <2>" (Some 50) "Lecture" ""))
          sample_document).
Proof.
  assert (entries_ok sample_document) as Hsample.
  { unfold entries_ok. cbn [sample_document activities].
    repeat constructor; cbn; done. }
  split; [done|]. by apply (proj1 clicks_keep_entries_valid).
Defined.

(** ** The calendar: drawing the month *)

Lemma add_activity_indicators_reads (item : DayItem) (file : Document) :
  after (_add_activity_indicators item) file = file
  /\ item_date (result (_add_activity_indicators item) file) = item_date item.
Proof.
  unfold _add_activity_indicators. by destruct (item_date item) eqn:Hd.
Qed.

Lemma run_pair {A : Type} (m : Store A) (file : Document) :
  m file = (result m file, after m file).
Proof. unfold result, after. by destruct (m file). Qed.

Lemma fill_cell_cleared (self : CalendarView) (day : Z) (file : Document) :
  day = 0
  \/ datetime.new (datetime.year (current_date self))
       (datetime.month (current_date self)) day = Some (displayed self day) ->
  fill_cell self day cleared_cell file = (Some (grid_cell self file day), file).
Proof.
  unfold fill_cell, grid_cell. intros Hday.
  destruct (decide (day = 0)) as [->|Hne]; [done|].
  destruct Hday as [?|Hnew]; [done|]. rewrite Hnew.
  cbv [mbind mret Store_bind Store_ret]. rewrite run_pair.
  destruct (add_activity_indicators_reads
              {| item_date := Some (displayed self day); item_indicator := [] |} file)
    as [Hfile _].
  cbn [cell_item cleared_cell item_indicator cell_style]. by rewrite Hfile.
Qed.

Lemma fill_days_cleared (self : CalendarView) (file : Document) (days : list Z)
    (filled : list Cell) (k : nat) :
  Forall (fun day =>
            day = 0
            \/ datetime.new (datetime.year (current_date self))
                 (datetime.month (current_date self)) day
               = Some (displayed self day)) days ->
  (length days <= k)%nat ->
  fill_days self days (length filled) (filled ++ replicate k cleared_cell) file
    = (Some (filled ++ (grid_cell self file <$> days)
             ++ replicate (k - length days) cleared_cell), file).
Proof.
  intros Hdays. revert filled k.
  induction Hdays as [|day days Hday Hdays IH]; intros filled k Hk.
  - cbn [fill_days length fmap list_fmap]. by rewrite Nat.sub_0_r.
  - cbn [length] in Hk. destruct k as [|k]; [lia|].
    cbn [fill_days]. rewrite lookup_app_r by lia. rewrite Nat.sub_diag.
    cbn [replicate lookup list_lookup].
    cbv [mbind mret Store_bind Store_ret]. rewrite (fill_cell_cleared _ _ _ Hday).
    rewrite insert_app_r_alt by lia. rewrite Nat.sub_diag. cbn [insert list_insert].
    replace (filled ++ grid_cell self file day :: replicate k cleared_cell)
      with ((filled ++ [grid_cell self file day]) ++ replicate k cleared_cell)
      by (by rewrite <- app_assoc).
    replace (S (length filled)) with (length (filled ++ [grid_cell self file day]))
      by (rewrite length_app; cbn; lia).
    rewrite IH by lia. rewrite fmap_cons. cbn [length].
    by rewrite <- !app_assoc.
Qed.

Lemma weeks_concat (fuel : nat) (days : list Z) :
  (length days <= fuel)%nat -> concat (calendar.weeks fuel days) = days.
Proof.
  revert days. induction fuel as [|fuel IH]; intros days Hlen.
  - destruct days; [done|cbn in Hlen; lia].
  - destruct days as [|d days]; [done|]. cbn [calendar.weeks concat].
    rewrite IH; [apply take_drop|].
    rewrite length_drop. cbn [length] in *. lia.
Qed.

Lemma weekday_range (y m d : Z) : 0 <= calendar.weekday y m d < 7.
Proof. unfold calendar.weekday. apply Z.mod_pos_bound. lia. Qed.

Lemma days_in_month_upper (y m : Z) : datetime.days_in_month y m <= 31.
Proof.
  unfold datetime.days_in_month.
  repeat match goal with |- context [if ?b then _ else _] => destruct b end; lia.
Qed.

(** The days of the displayed month as [monthcalendar] lists them. *)
Lemma monthcalendar_days (y m : Z) :
  1 <= m <= 12 ->
  exists cal days_after,
    calendar.monthcalendar y m = Some cal
    /\ concat cal
       = replicate (Z.to_nat (calendar.weekday y m 1)) 0
         ++ (Z.of_nat <$> seq 1 (Z.to_nat (datetime.days_in_month y m)))
         ++ replicate days_after 0
    /\ (Z.to_nat (calendar.weekday y m 1)
        + Z.to_nat (datetime.days_in_month y m) + days_after <= 42)%nat.
Proof.
  intros Hm. unfold calendar.monthcalendar, calendar.itermonthdays, calendar.monthrange.
  rewrite (proj2 (Z.leb_le 1 m)), (proj2 (Z.leb_le m 12)) by lia.
  cbn [andb mbind option_bind].
  pose proof (weekday_range y m 1) as Hw.
  pose proof (days_in_month_lower y m) as Hlo.
  pose proof (days_in_month_upper y m) as Hup.
  set (day1 := calendar.weekday y m 1) in *.
  set (ndays := datetime.days_in_month y m) in *.
  rewrite Z.sub_0_r, (Z.mod_small day1 7) by lia.
  eexists _, (Z.to_nat ((0 - day1 - ndays) mod 7)). split_and!; [done| |].
  - apply weeks_concat. done.
  - pose proof (Z.mod_pos_bound (0 - day1 - ndays) 7 ltac:(lia)) as Hmod.
    pose proof (Z.div_mod (0 - day1 - ndays) 7 ltac:(lia)) as Hdiv.
    lia.
Qed.

Lemma new_day_of_month (y m d : Z) :
  1 <= m <= 12 -> datetime.MINYEAR <= y <= datetime.MAXYEAR ->
  1 <= d <= datetime.days_in_month y m ->
  datetime.new y m d = Some (datetime.mk y m d).
Proof.
  intros Hm Hy Hd. unfold datetime.new.
  by rewrite !(proj2 (Z.leb_le _ _)) by lia.
Qed.

(** What [_update_calendar] draws: empty cells up to the column of the
    first day, the cells of the days, empty cells up to the 42nd. *)
Lemma update_calendar_run (self : CalendarView) (file : Document)
    (day_labels : list Cell) :
  1 <= datetime.month (current_date self) <= 12 ->
  datetime.MINYEAR <= datetime.year (current_date self) <= datetime.MAXYEAR ->
  length day_labels = 42%nat ->
  exists empty_after,
    (first_column self + month_length self + empty_after = 42)%nat
    /\ _update_calendar self day_labels file
       = (Some (replicate (first_column self) cleared_cell
                ++ (day_cell self file <$> (Z.of_nat <$> seq 1 (month_length self)))
                ++ replicate empty_after cleared_cell), file).
Proof.
  intros Hm Hy Hlen. unfold _update_calendar, first_column, month_length.
  set (y := datetime.year (current_date self)) in *.
  set (m := datetime.month (current_date self)) in *.
  destruct (monthcalendar_days y m Hm) as (cal & aft & -> & -> & Hsize).
  set (off := Z.to_nat (calendar.weekday y m 1)) in *.
  set (n := Z.to_nat (datetime.days_in_month y m)) in *.
  rewrite (const_fmap _ _ cleared_cell) by done. rewrite Hlen.
  pose proof (fill_days_cleared self file
                (replicate off 0 ++ (Z.of_nat <$> seq 1 n) ++ replicate aft 0) [] 42)
    as Hfill.
  cbn [length app] in Hfill. rewrite Hfill; clear Hfill.
  - exists (aft + (42 - (off + n + aft)))%nat. split; [lia|]. do 2 f_equal.
    rewrite !fmap_app, !fmap_replicate, !length_app, !length_replicate, !length_fmap,
      length_seq.
    unfold grid_cell at 1 3. rewrite !decide_True by done.
    rewrite <- !app_assoc, <- replicate_add. f_equal. f_equal; [|f_equal; lia].
    apply list_fmap_ext. intros i d Hd. unfold grid_cell.
    apply list_lookup_fmap_Some in Hd as (k & -> & Hk).
    apply lookup_seq in Hk as [-> _]. rewrite decide_False by lia. done.
  - rewrite !Forall_app. split_and!.
    + apply Forall_replicate. by left.
    + apply Forall_fmap, Forall_forall. intros k Hk. right.
      apply elem_of_seq in Hk. apply new_day_of_month; [done|done|].
      fold y m. unfold n in Hk.
      pose proof (days_in_month_lower y m). lia.
    + apply Forall_replicate. by left.
  - rewrite !length_app, !length_replicate, length_fmap, length_seq. lia.
Qed.

Lemma same_day_eq (a b : datetime.t) : same_day a b = true <-> a = b.
Proof.
  unfold same_day. rewrite !andb_true_iff, !Z.eqb_eq.
  destruct a, b; cbn. split; [intros [[-> ->] ->]; done|by intros [= -> -> ->]].
Qed.

(** The style of a dated cell says whether it is the selection or today. *)
Lemma style_for_spec (self : CalendarView) (date : datetime.t) :
  (style_for self date CalendarDay = CalendarSelected <-> selected_date self = Some date)
  /\ (style_for self date CalendarDay = CalendarToday <->
      today self = date /\ selected_date self ≠ Some date).
Proof.
  unfold style_for.
  destruct (same_day date (today self)) eqn:Ht;
    [apply same_day_eq in Ht|apply not_true_iff_false in Ht; rewrite same_day_eq in Ht];
    (destruct (selected_date self) as [s|];
     [destruct (same_day date s) eqn:Hs;
      [apply same_day_eq in Hs
      |apply not_true_iff_false in Hs; rewrite same_day_eq in Hs]|]);
    split; split; try done; try congruence;
    try (intros [? ?]; congruence); try (intros _; split; congruence).
Qed.

Lemma day_cell_date (self : CalendarView) (file : Document) (day : Z) :
  item_date (cell_item (day_cell self file day)) = Some (displayed self day).
Proof.
  exact (proj2 (add_activity_indicators_reads
                  {| item_date := Some (displayed self day); item_indicator := [] |}
                  file)).
Qed.

Lemma omap_cleared {B : Type} (f : Cell -> option B) (k : nat) :
  f cleared_cell = None -> omap f (replicate k cleared_cell) = [].
Proof. intros Hf. induction k as [|k IH]; [done|]. cbn. by rewrite Hf. Qed.

Lemma omap_fmap_Some {A B C : Type} (f : B -> option C) (g : A -> B) (h : A -> C)
    (l : list A) :
  (forall x, f (g x) = Some (h x)) -> omap f (g <$> l) = h <$> l.
Proof.
  intros Hf. induction l as [|x l IH]; [done|]. csimpl. by rewrite Hf, IH.
Qed.

Lemma filter_Forall_not {A : Type} (P : A -> Prop) `{!forall x, Decision (P x)}
    (l : list A) :
  Forall (fun x => ~ P x) l -> filter P l = [].
Proof.
  induction 1 as [|x l Hx Hl IH]; [done|]. by rewrite filter_cons_False.
Qed.

(** When among distinct [l] only [a] can give an image with [P], the images
    with [P] are the image of [a], if [a] is there. *)
Lemma filter_fmap_unique {A B : Type} `{!EqDecision A} (P : B -> Prop)
    `{!forall y, Decision (P y)} (f : A -> B) (a : A) (l : list A) :
  NoDup l -> (forall x, x ∈ l -> (P (f x) <-> x = a)) ->
  filter P (f <$> l) = if decide (a ∈ l) then [f a] else [].
Proof.
  induction 1 as [|x l Hx Hl IH]; intros HP; [done|].
  rewrite fmap_cons. destruct (decide (x = a)) as [->|Hne].
  - rewrite filter_cons_True by (apply HP; [left|done]).
    rewrite IH by (intros y Hy; apply HP; by right).
    rewrite decide_False by done. rewrite decide_True by left. done.
  - rewrite filter_cons_False by (rewrite HP; [done|left]).
    rewrite IH by (intros y Hy; apply HP; by right).
    destruct (decide (a ∈ l)) as [Hin|Hnot].
    + rewrite decide_True by (by right). done.
    + rewrite decide_False; [done|]. apply not_elem_of_cons. split; [congruence|done].
Qed.

Lemma month_days_NoDup (n : nat) : NoDup (Z.of_nat <$> seq 1 n).
Proof. apply NoDup_fmap; [apply Nat2Z.inj'|apply NoDup_seq]. Qed.

Lemma month_days_elem (n : nat) (d : Z) :
  d ∈ Z.of_nat <$> seq 1 n <-> 1 <= d <= Z.of_nat n.
Proof.
  rewrite list_elem_of_fmap. split.
  - intros (k & -> & Hk). apply elem_of_seq in Hk. lia.
  - intros Hd. exists (Z.to_nat d). split; [lia|]. apply elem_of_seq. lia.
Qed.

(** X19: for a displayed month in [1..12] of a year in [MINYEAR..MAXYEAR]
    and the 42 entries of the grid, [_update_calendar] raises nothing, only
    reads the file and gives 42 cells: the days of the month, in order and
    each once, from the column of the weekday of the first day (Monday is
    column 0) on, each with its day number, its date and the indicators of
    its date, and empty cells before and after them. *)
Theorem update_calendar_layout (self : CalendarView) (file : Document)
    (day_labels : list Cell) :
  1 <= datetime.month (current_date self) <= 12 ->
  datetime.MINYEAR <= datetime.year (current_date self) <= datetime.MAXYEAR ->
  length day_labels = 42%nat ->
  exists cells,
    _update_calendar self day_labels file = (Some cells, file)
    /\ length cells = 42%nat
    /\ (first_column self < 7)%nat
    /\ (28 <= month_length self <= 31)%nat
    /\ (forall i, (i < month_length self)%nat ->
          cells !! (first_column self + i)%nat
          = Some (day_cell self file (Z.of_nat (S i))))
    /\ (forall i, (i < first_column self
                   \/ first_column self + month_length self <= i < 42)%nat ->
          cells !! i = Some cleared_cell)
    /\ omap (fun c => item_date (cell_item c)) cells
       = displayed self <$> (Z.of_nat <$> seq 1 (month_length self)).
Proof.
  intros Hm Hy Hlen.
  destruct (update_calendar_run self file day_labels Hm Hy Hlen)
    as (aft & Hsize & Hrun).
  eexists. split; [exact Hrun|].
  pose proof (weekday_range (datetime.year (current_date self))
                (datetime.month (current_date self)) 1) as Hw.
  pose proof (days_in_month_lower (datetime.year (current_date self))
                (datetime.month (current_date self))) as Hlo.
  pose proof (days_in_month_upper (datetime.year (current_date self))
                (datetime.month (current_date self))) as Hup.
  assert (first_column self < 7)%nat as Hcol by (unfold first_column; lia).
  assert (28 <= month_length self <= 31)%nat as Hdays by (unfold month_length; lia).
  refine (conj _ (conj Hcol (conj Hdays (conj _ (conj _ _))))).
  - rewrite !length_app, !length_replicate, !length_fmap, length_seq. lia.
  - intros i Hi. rewrite lookup_app_r by (rewrite length_replicate; lia).
    rewrite length_replicate.
    replace (first_column self + i - first_column self)%nat with i by lia.
    rewrite lookup_app_l by (rewrite !length_fmap, length_seq; lia).
    rewrite !list_lookup_fmap, lookup_seq_lt by done. done.
  - intros i [Hi|Hi].
    + rewrite lookup_app_l by (rewrite length_replicate; lia).
      by apply lookup_replicate_2.
    + rewrite lookup_app_r by (rewrite length_replicate; lia).
      rewrite lookup_app_r by (rewrite !length_fmap, length_seq, length_replicate; lia).
      apply lookup_replicate_2.
      rewrite !length_fmap, length_seq, length_replicate. lia.
  - rewrite !omap_app, !omap_cleared by done. rewrite app_nil_r. cbn [app].
    apply omap_fmap_Some. intros d. apply day_cell_date.
Qed.

Lemma update_calendar_layout_witness :
  exists cells,
    _update_calendar view_of_january_2025 (replicate 42 cleared_cell) sample_document
      = (Some cells, sample_document)
    /\ length cells = 42%nat
    /\ (first_column view_of_january_2025 < 7)%nat
    /\ (28 <= month_length view_of_january_2025 <= 31)%nat
    /\ (forall i, (i < month_length view_of_january_2025)%nat ->
          cells !! (first_column view_of_january_2025 + i)%nat
          = Some (day_cell view_of_january_2025 sample_document (Z.of_nat (S i))))
    /\ (forall i, (i < first_column view_of_january_2025
                   \/ first_column view_of_january_2025
                      + month_length view_of_january_2025 <= i < 42)%nat ->
          cells !! i = Some cleared_cell)
    /\ omap (fun c => item_date (cell_item c)) cells
       = displayed view_of_january_2025
           <$> (Z.of_nat <$> seq 1 (month_length view_of_january_2025)).
Proof.
  apply (update_calendar_layout view_of_january_2025 sample_document
           (replicate 42 cleared_cell)); by_compute.
Defined.

(** February of the leap year 2024 starts on a Thursday and has 29 days. *)
Example february_2024 :
  first_column (mkCalendarView (datetime.mk 2024 2 10) (datetime.mk 2024 2 1) None) = 3%nat
  /\ month_length (mkCalendarView (datetime.mk 2024 2 10) (datetime.mk 2024 2 1) None)
     = 29%nat.
Proof. by vm_compute. Qed.

(** The day of the displayed month that the selection falls on, 0 when the
    selection is absent or in another month. *)
Lemma selected_cells (self : CalendarView) (file : Document) (n : nat) :
  exists a,
    filter (fun c => cell_style c = CalendarSelected)
      (day_cell self file <$> (Z.of_nat <$> seq 1 n))
    = (if decide (a ∈ Z.of_nat <$> seq 1 n) then [day_cell self file a] else [])
    /\ (forall s, selected_date self = Some s ->
                  datetime.year s = datetime.year (current_date self) ->
                  datetime.month s = datetime.month (current_date self) ->
                  a = datetime.day s).
Proof.
  set (a := match selected_date self with
            | Some s =>
                if decide (datetime.year s = datetime.year (current_date self)
                           /\ datetime.month s = datetime.month (current_date self))
                then datetime.day s else 0
            | None => 0
            end).
  exists a. split.
  - apply filter_fmap_unique; [apply month_days_NoDup|].
    intros d Hd. apply month_days_elem in Hd.
    unfold day_cell. cbn [cell_style].
    rewrite (proj1 (style_for_spec self _)). unfold a.
    destruct (selected_date self) as [[ys ms ds]|]; [|split; [done|lia]].
    cbn [datetime.year datetime.month datetime.day].
    case_decide as Hsame.
    + destruct Hsame as [-> ->]. split; [by intros [= ->]|by intros ->].
    + split; [|lia]. intros [= -> -> ->]. by destruct Hsame.
  - intros s Hs Hy Hmo. unfold a. rewrite Hs. by rewrite decide_True.
Qed.

(** X20: in the month that [_update_calendar] draws, a cell has the style
    of the selection exactly when its date is the selected date, and the
    style of today exactly when its date is today's and is not the selected
    date; at most one cell has the style of the selection. *)
Theorem update_calendar_styles (self : CalendarView) (file : Document)
    (day_labels : list Cell) :
  1 <= datetime.month (current_date self) <= 12 ->
  datetime.MINYEAR <= datetime.year (current_date self) <= datetime.MAXYEAR ->
  length day_labels = 42%nat ->
  exists cells,
    result (_update_calendar self day_labels) file = Some cells
    /\ Forall (fun c =>
                 (cell_style c = CalendarSelected <->
                  is_Some (selected_date self)
                  /\ item_date (cell_item c) = selected_date self)
                 /\ (cell_style c = CalendarToday <->
                     item_date (cell_item c) = Some (today self)
                     /\ selected_date self ≠ Some (today self))) cells
    /\ (length (filter (fun c => cell_style c = CalendarSelected) cells) <= 1)%nat.
Proof.
  intros Hm Hy Hlen.
  destruct (update_calendar_run self file day_labels Hm Hy Hlen)
    as (aft & Hsize & Hrun).
  eexists. split; [unfold result; by rewrite Hrun|]. split.
  - assert ((cell_style cleared_cell = CalendarSelected <->
             is_Some (selected_date self)
             /\ item_date (cell_item cleared_cell) = selected_date self)
            /\ (cell_style cleared_cell = CalendarToday <->
                item_date (cell_item cleared_cell) = Some (today self)
                /\ selected_date self ≠ Some (today self))) as Hempty.
    { cbn. split; (split; [done|]).
      - intros [[s Hs] Hnone]. congruence.
      - by intros [? _]. }
    rewrite !Forall_app. split_and!; [by apply Forall_replicate| |by apply Forall_replicate].
    apply Forall_fmap, Forall_forall. intros d _. unfold compose. cbn beta.
    rewrite day_cell_date. unfold day_cell at 1 2. cbn [cell_style].
    destruct (style_for_spec self (displayed self d)) as [Hsel Htoday].
    fold (displayed self d). rewrite Hsel, Htoday. split.
    + split; [intros Hs; split; [by rewrite Hs|done]|by intros [_ ?]].
    + split.
      * intros [<- Hne]. split; [done|]. done.
      * intros [[= <-] Hne]. split; [done|]. done.
  - rewrite !filter_app.
    rewrite !(filter_Forall_not _ (replicate _ cleared_cell))
      by (by apply Forall_replicate).
    rewrite app_nil_r. cbn [app].
    destruct (selected_cells self file (month_length self)) as (a & -> & _).
    case_decide; cbn; lia.
Qed.

Lemma update_calendar_styles_witness :
  exists cells,
    result (_update_calendar view_of_january_2025 (replicate 42 cleared_cell))
      sample_document = Some cells
    /\ Forall (fun c =>
                 (cell_style c = CalendarSelected <->
                  is_Some (selected_date view_of_january_2025)
                  /\ item_date (cell_item c) = selected_date view_of_january_2025)
                 /\ (cell_style c = CalendarToday <->
                     item_date (cell_item c) = Some (today view_of_january_2025)
                     /\ selected_date view_of_january_2025
                        ≠ Some (today view_of_january_2025))) cells
    /\ (length (filter (fun c => cell_style c = CalendarSelected) cells) <= 1)%nat.
Proof.
  apply (update_calendar_styles view_of_january_2025 sample_document
           (replicate 42 cleared_cell)); by_compute.
Defined.

(** X21: a click on a day of the displayed month makes that date the
    selection and draws the month with exactly one cell in the style of the
    selection, the cell of that day; the displayed month, today's date and
    the file are kept. *)
Theorem on_date_click_selects (self : CalendarView) (file : Document)
    (day_labels : list Cell) (day : Z) :
  1 <= datetime.month (current_date self) <= 12 ->
  datetime.MINYEAR <= datetime.year (current_date self) <= datetime.MAXYEAR ->
  length day_labels = 42%nat ->
  1 <= day <= Z.of_nat (month_length self) ->
  exists self' cells,
    _on_date_click self (displayed self day) day_labels file
      = ((self', Some cells), file)
    /\ self' = {| today := today self; current_date := current_date self;
                  selected_date := Some (displayed self day) |}
    /\ filter (fun c => cell_style c = CalendarSelected) cells
       = [day_cell self' file day]
    /\ cells !! (first_column self + Z.to_nat (day - 1))%nat
       = Some (day_cell self' file day)
    /\ cell_style (day_cell self' file day) = CalendarSelected.
Proof.
  intros Hm Hy Hlen Hday. unfold _on_date_click.
  set (self' := {| today := today self; current_date := current_date self;
                   selected_date := Some (displayed self day) |}).
  destruct (update_calendar_run self' file day_labels Hm Hy Hlen)
    as (aft & Hsize & Hrun).
  cbv [mbind mret Store_bind Store_ret]. rewrite Hrun.
  eexists _, _. split; [done|]. split; [done|].
  change (first_column self') with (first_column self) in *.
  change (month_length self') with (month_length self) in *.
  split_and!.
  - rewrite !filter_app.
    rewrite !(filter_Forall_not _ (replicate _ cleared_cell))
      by (by apply Forall_replicate).
    rewrite app_nil_r. cbn [app].
    destruct (selected_cells self' file (month_length self)) as (a & -> & Ha).
    rewrite (Ha (displayed self day)) by done. cbn [displayed datetime.day].
    rewrite decide_True; [done|]. by apply month_days_elem.
  - rewrite lookup_app_r by (rewrite length_replicate; lia).
    rewrite length_replicate.
    replace (first_column self + Z.to_nat (day - 1) - first_column self)%nat
      with (Z.to_nat (day - 1)) by lia.
    rewrite lookup_app_l by (rewrite !length_fmap, length_seq; lia).
    rewrite !list_lookup_fmap, lookup_seq_lt by lia. cbn [fmap option_fmap option_map].
    do 2 f_equal. lia.
  - unfold day_cell. cbn [cell_style]. by apply style_for_spec.
Qed.

Lemma on_date_click_selects_witness :
  exists self' cells,
    _on_date_click view_of_january_2025 (displayed view_of_january_2025 20)
      (replicate 42 cleared_cell) sample_document
      = ((self', Some cells), sample_document)
    /\ self' = {| today := today view_of_january_2025;
                  current_date := current_date view_of_january_2025;
                  selected_date := Some (displayed view_of_january_2025 20) |}
    /\ filter (fun c => cell_style c = CalendarSelected) cells
       = [day_cell self' sample_document 20]
    /\ cells !! (first_column view_of_january_2025 + Z.to_nat (20 - 1))%nat
       = Some (day_cell self' sample_document 20)
    /\ cell_style (day_cell self' sample_document 20) = CalendarSelected.
Proof.
  apply (on_date_click_selects view_of_january_2025 sample_document
           (replicate 42 cleared_cell) 20); by_compute.
Defined.

(** ** The pie chart of the statistics *)

Lemma total_duration_positive (acts : list Activity) :
  Forall (fun a => 0 < act_duration a) acts -> acts ≠ [] -> 0 < total_duration acts.
Proof.
  induction acts as [|a acts IH] using rev_ind; [done|]. intros Hpos _.
  rewrite total_duration_snoc. apply Forall_app in Hpos as [Hacts Ha].
  apply Forall_cons in Ha as [Ha _]. destruct acts as [|b acts].
  - change (total_duration []) with 0. lia.
  - specialize (IH Hacts ltac:(done)). lia.
Qed.

Lemma cat_stats_of (acts : list Activity) : stats_of acts (cat_stats acts).
Proof.
  apply (stats_of_fold acts [] []). split; [apply NoDup_nil_2|].
  intros k st. split; [intros H; by apply elem_of_nil in H|].
  intros [H _]. by apply elem_of_nil in H.
Qed.

(** X22: when every stored activity has a duration above 0, the statistics
    draw the pie chart exactly when some activity is stored, with one wedge
    for every category of [cat_stats], and every wedge has a size above 0. *)
Theorem statistics_pie (file : Document) :
  Forall (fun a => 0 < act_duration a) (activities file) ->
  exists pie,
    result statistics file
      = (total_activities (activities file), total_duration (activities file),
         cat_stats (activities file), pie)
    /\ (activities file = [] -> pie = None)
    /\ (activities file ≠ [] ->
        exists wedges,
          pie = Some wedges
          /\ length wedges = length (cat_stats (activities file))
          /\ Forall (fun w => 0 < w.1.2) wedges).
Proof.
  intros Hpos. exists (pie_data (category_index (categories file)) (activities file)).
  split; [reflexivity|]. unfold pie_data. split.
  - intros ->. done.
  - intros Hne. pose proof (total_duration_positive _ Hpos Hne) as Htotal.
    rewrite (proj2 (Z.ltb_lt _ _) Htotal). eexists. split; [done|].
    split; [by rewrite length_fmap|].
    apply Forall_fmap, Forall_forall. intros [k st] Hst. unfold compose.
    assert (0 < stat_duration st) as Hst'.
    { destruct (cat_stats_of (activities file)) as [_ Hstats].
      apply Hstats in Hst as [Hk ->]. cbn [stat_duration]. unfold duration_in.
      apply total_duration_positive.
      - by apply Forall_filter_keeps.
      - apply list_elem_of_fmap in Hk as (a & -> & Ha). intros Hnil.
        eapply (filter_nil_not_elem_of _ _ a Hnil); done. }
    by destruct (category_index (categories file) !! k).
Qed.

Lemma statistics_pie_witness :
  exists pie,
    result statistics sample_document
      = (total_activities (activities sample_document),
         total_duration (activities sample_document),
         cat_stats (activities sample_document), pie)
    /\ (activities sample_document = [] -> pie = None)
    /\ (activities sample_document ≠ [] ->
        exists wedges,
          pie = Some wedges
          /\ length wedges = length (cat_stats (activities sample_document))
          /\ Forall (fun w => 0 < w.1.2) wedges).
Proof. apply (statistics_pie sample_document). by_compute. Defined.
